(** * ApplicationSet template rendering (pkg/utils/util.go)

    A shallow embedding of [Render.RenderTemplateParams], of its two
    substitution helpers [replaceWithFastTemplate] and
    [replaceWithGoTemplate], and of the generator inspector
    [invalidGenerators] / [addInvalidGeneratorNames].

    Go strings are byte sequences: they are modelled by [string], whose
    characters are the 8-bit [ascii].  A Go [map[string]string] is a
    [gmap string string].  A Go function returning [(T, error)] returns a
    pair whose second component is an [option]; a panic is an outcome of
    its own, never a returned error. *)

From Stdlib Require Import ZArith Ascii String.
From stdpp Require Import base option list gmap strings sorting.

Local Open Scope string_scope.
#[local] Arguments String.append : simpl nomatch.

(** ** Outcomes of a Go call *)

Inductive panic : Type :=
| panic_string (msg : string)
| panic_end_tag (endTag template rest : string)
| panic_nil_dereference.

Inductive outcome (A : Type) : Type :=
| Returned (a : A)
| Panicked (p : panic)
| OutOfFuel.
Arguments Returned {A} a.
Arguments Panicked {A} p.
Arguments OutOfFuel {A}.

#[global] Instance outcome_ret : MRet outcome := @Returned.
#[global] Instance outcome_bind : MBind outcome := fun A B k x =>
  match x with
  | Returned a => k a
  | Panicked p => Panicked p
  | OutOfFuel => OutOfFuel
  end.

(** ** Byte strings: slicing and searching (Go's [s[:n]], [s[n:]],
    [strings.HasPrefix], [bytes.Index], [bytes.Count]) *)

Fixpoint slice_to (n : nat) (s : string) : string :=
  match n, s with
  | S n', String c s' => String c (slice_to n' s')
  | _, _ => EmptyString
  end.

Fixpoint slice_from (n : nat) (s : string) : string :=
  match n, s with
  | S n', String _ s' => slice_from n' s'
  | _, _ => s
  end.

Fixpoint HasPrefix (s pre : string) {struct pre} : bool :=
  match pre with
  | EmptyString => true
  | String a pre' =>
      match s with
      | String c s' => if ascii_dec a c then HasPrefix s' pre' else false
      | EmptyString => false
      end
  end.

Fixpoint Index (s sep : string) : option nat :=
  if HasPrefix s sep then Some 0
  else match s with
       | EmptyString => None
       | String _ s' => S <$> Index s' sep
       end.

Fixpoint Count_loop (fuel : nat) (s sep : string) : nat :=
  match fuel with
  | 0 => 0
  | S fuel' =>
      match Index s sep with
      | None => 0
      | Some i => S (Count_loop fuel' (slice_from (i + String.length sep) s) sep)
      end
  end.

(** [bytes.Count] for a non-empty separator (its callers below have
    panicked before on an empty one). *)
Definition Count (s sep : string) : nat :=
  Count_loop (S (String.length s)) s sep.

(** ** github.com/valyala/fasttemplate *)

Module fasttemplate.

Record Template : Type := mkTemplate {
  template : string;
  startTag : string;
  endTag : string;
  texts : list string;
  tags : list string
}.

(** The parsing loop of [Template.Reset]: the text before the next start
    tag is appended to [texts], the text between the start tag and the
    next end tag to [tags].  [inr rest] is the error "Cannot find end
    tag ... starting from rest". *)
Fixpoint Reset_loop (fuel : nat) (s a b : string) (texts tags : list string)
  : outcome (list string * list string + string) :=
  match fuel with
  | 0 => OutOfFuel
  | S fuel' =>
      match Index s a with
      | None => Returned (inl ((texts ++ [s])%list, tags))
      | Some n =>
          let texts := (texts ++ [slice_to n s])%list in
          let s := slice_from (n + String.length a) s in
          match Index s b with
          | None => Returned (inr s)
          | Some n =>
              let tags := (tags ++ [slice_to n s])%list in
              let s := slice_from (n + String.length b) s in
              Reset_loop fuel' s a b texts tags
          end
      end
  end.

Definition Reset (template startTag endTag : string) : outcome (Template + panic) :=
  if decide (String.length startTag = 0) then Panicked (panic_string "startTag cannot be empty")
  else if decide (String.length endTag = 0) then Panicked (panic_string "endTag cannot be empty")
  else if decide (Count template startTag = 0)
    then Returned (inl (mkTemplate template startTag endTag [] []))
  else
    r ← Reset_loop (S (String.length template)) template startTag endTag [] [];
    match r with
    | inl (texts, tags) => Returned (inl (mkTemplate template startTag endTag texts tags))
    | inr rest => Returned (inr (panic_end_tag endTag template rest))
    end.

(** [New] panics when [Reset] reports an error. *)
Definition New (template startTag endTag : string) : outcome Template :=
  r ← Reset template startTag endTag;
  match r with
  | inl t => Returned t
  | inr e => Panicked e
  end.

(** A [TagFunc] writes to the buffer and may update the variables its
    closure captured (the state [St]); it returns Go's [(int, error)]. *)
Definition TagFunc (St Err : Type) : Type :=
  string (* buffer *) -> string (* tag *) -> St -> (string * St) * (nat * option Err).

Section Execute.
Context {St Err : Type}.

(** The loop [for i := 0; i < n; i++] of [ExecuteFunc], counting up
      from [i] with [k] iterations left. *)
Fixpoint ExecuteFunc_loop (t : Template) (f : TagFunc St Err) (k i : nat)
      (w : string) (st : St) : outcome ((string * St) * option Err) :=
    match k with
    | 0 => Returned ((w, st), None)
    | S k' =>
        match texts t !! i, tags t !! i with
        | Some text, Some tag =>
            let w := w ++ text in
            let '((w, st), (_, err)) := f w tag st in
            match err with
            | Some e => Returned ((w, st), Some e)
            | None => ExecuteFunc_loop t f k' (S i) w st
            end
        | _, _ => Panicked (panic_string "index out of range")
        end
    end.

Definition ExecuteFunc (t : Template) (f : TagFunc St Err) (w : string) (st : St)
    : outcome ((string * St) * option Err) :=
    match length (texts t) with
    | 0 => Returned ((w ++ template t, st), None)
    | S n =>
        r ← ExecuteFunc_loop t f n 0 w st;
        match r with
        | ((w, st), Some e) => Returned ((w, st), Some e)
        | ((w, st), None) =>
            match texts t !! n with
            | Some text => Returned ((w ++ text, st), None)
            | None => Panicked (panic_string "index out of range")
            end
        end
    end.

Definition ExecuteFuncStringWithErr (t : Template) (f : TagFunc St Err) (st : St)
    : outcome ((string * St) * option Err) :=
    r ← ExecuteFunc t f "" st;
    match r with
    | ((_, st), Some e) => Returned (("", st), Some e)
    | ((bb, st), None) => Returned ((bb, st), None)
    end.

(** [ExecuteFuncString] panics when the tag function returns an error. *)
Definition ExecuteFuncString (t : Template) (f : TagFunc St Err) (st : St)
    : outcome (string * St) :=
    r ← ExecuteFuncStringWithErr t f st;
    match r with
    | (_, Some _) => Panicked (panic_string "unexpected error")
    | (r, None) => Returned r
    end.
End Execute.

End fasttemplate.


(** ** Bytes and runes *)

Definition byte_val (c : ascii) : Z := Z.of_N (N_of_ascii c).
Definition byte_of (z : Z) : ascii := ascii_of_N (Z.to_N (z mod 256)).

Definition byte_at (s : string) (i : Z) : Z :=
  match String.get (Z.to_nat i) s with
  | Some c => byte_val c
  | None => 0
  end.

Definition chr (n : nat) : string := String (ascii_of_nat n) EmptyString.

(** ** unicode/utf8 *)

Module utf8.
Local Open Scope Z_scope.

Definition RuneError : Z := 0xFFFD.
Definition RuneSelf : Z := 0x80.
Definition MaxRune : Z := 0x10FFFF.
Definition UTFMax : nat := 4%nat.

(** The table [first]: [0xF0] marks ASCII, [0xF1] an invalid lead byte;
    otherwise the low bits give the size and the high bits the index into
    [acceptRanges]. *)
Definition first (b : Z) : Z :=
  if b <? 0x80 then 0xF0
  else if b <? 0xC2 then 0xF1
  else if b <? 0xE0 then 0x02
  else if b =? 0xE0 then 0x13
  else if b <? 0xED then 0x03
  else if b =? 0xED then 0x23
  else if b <? 0xF0 then 0x03
  else if b =? 0xF0 then 0x34
  else if b <? 0xF4 then 0x04
  else if b =? 0xF4 then 0x44
  else 0xF1.

Definition acceptRanges (i : Z) : Z * Z :=
  if i =? 0 then (0x80, 0xBF)
  else if i =? 1 then (0xA0, 0xBF)
  else if i =? 2 then (0x80, 0x9F)
  else if i =? 3 then (0x90, 0xBF)
  else if i =? 4 then (0x80, 0x8F)
  else (0, 0).

Definition continuation (b : Z) : bool := (0x80 <=? b) && (b <=? 0xBF).

Definition DecodeRuneInString (s : string) : Z * nat :=
  match s with
  | EmptyString => (RuneError, 0%nat)
  | String c0 s1 =>
      let s0 := byte_val c0 in
      let x := first s0 in
      if 0xF0 <=? x then ((if x =? 0xF0 then s0 else RuneError), 1%nat)
      else
        let sz := Z.to_nat (Z.land x 7) in
        let '(lo, hi) := acceptRanges (Z.shiftr x 4) in
        if (String.length s <? sz)%nat then (RuneError, 1%nat)
        else match s1 with
        | EmptyString => (RuneError, 1%nat)
        | String c1 s2 =>
            let b1 := byte_val c1 in
            if (b1 <? lo) || (hi <? b1) then (RuneError, 1%nat)
            else if (sz <=? 2)%nat
              then (Z.lor (Z.shiftl (Z.land s0 0x1F) 6) (Z.land b1 0x3F), 2%nat)
            else match s2 with
            | EmptyString => (RuneError, 1%nat)
            | String c2 s3 =>
                let b2 := byte_val c2 in
                if negb (continuation b2) then (RuneError, 1%nat)
                else if (sz <=? 3)%nat
                  then (Z.lor (Z.lor (Z.shiftl (Z.land s0 0x0F) 12)
                                     (Z.shiftl (Z.land b1 0x3F) 6))
                              (Z.land b2 0x3F), 3%nat)
                else match s3 with
                | EmptyString => (RuneError, 1%nat)
                | String c3 _ =>
                    let b3 := byte_val c3 in
                    if negb (continuation b3) then (RuneError, 1%nat)
                    else (Z.lor (Z.lor (Z.lor (Z.shiftl (Z.land s0 0x07) 18)
                                              (Z.shiftl (Z.land b1 0x3F) 12))
                                       (Z.shiftl (Z.land b2 0x3F) 6))
                                (Z.land b3 0x3F), 4%nat)
                end
            end
        end
  end.

Definition RuneStart (b : Z) : bool := negb (Z.land b 0xC0 =? 0x80).

(** [for start--; start >= lim; start-- { if RuneStart(s[start]) { break } }]
    with [k] the number of positions from [lim] to [start]. *)
Fixpoint rune_start_back (k : nat) (start : Z) (s : string) : Z :=
  match k with
  | O => start
  | S k' =>
      if RuneStart (byte_at s start) then start
      else rune_start_back k' (start - 1) s
  end.

Definition DecodeLastRuneInString (s : string) : Z * nat :=
  let end_ := Z.of_nat (String.length s) in
  if end_ =? 0 then (RuneError, 0%nat)
  else
    let start := end_ - 1 in
    let r := byte_at s start in
    if r <? RuneSelf then (r, 1%nat)
    else
      let lim := Z.max 0 (end_ - Z.of_nat UTFMax) in
      let start := rune_start_back (Z.to_nat (start - lim)) (start - 1) s in
      let start := Z.max 0 start in
      let '(r, size) := DecodeRuneInString (slice_from (Z.to_nat start) s) in
      if start + Z.of_nat size =? end_ then (r, size) else (RuneError, 1%nat).

(** [ValidRune]: in range and not a surrogate half. *)
Definition ValidRune (r : Z) : bool :=
  ((0 <=? r) && (r <? 0xD800)) || ((0xDFFF <? r) && (r <=? MaxRune)).

(** [AppendRune], as the bytes it appends. *)
Definition EncodeRune (r : Z) : string :=
  if (0 <=? r) && (r <=? 0x7F) then String (byte_of r) EmptyString
  else if (0 <=? r) && (r <=? 0x7FF) then
    String (byte_of (Z.lor 0xC0 (Z.shiftr r 6)))
      (String (byte_of (Z.lor 0x80 (Z.land r 0x3F))) EmptyString)
  else
    let r := if ValidRune r then r else RuneError in
    if r <=? 0xFFFF then
      String (byte_of (Z.lor 0xE0 (Z.shiftr r 12)))
        (String (byte_of (Z.lor 0x80 (Z.land (Z.shiftr r 6) 0x3F)))
          (String (byte_of (Z.lor 0x80 (Z.land r 0x3F))) EmptyString))
    else
      String (byte_of (Z.lor 0xF0 (Z.shiftr r 18)))
        (String (byte_of (Z.lor 0x80 (Z.land (Z.shiftr r 12) 0x3F)))
          (String (byte_of (Z.lor 0x80 (Z.land (Z.shiftr r 6) 0x3F)))
            (String (byte_of (Z.lor 0x80 (Z.land r 0x3F))) EmptyString))).

End utf8.

(** ** unicode.IsSpace and strings.TrimSpace *)

Module unicode.
Local Open Scope Z_scope.

Definition MaxLatin1 : Z := 0xFF.

(** The [White_Space] property; the Latin-1 part is the switch of [IsSpace]. *)
Definition IsSpace (r : Z) : bool :=
  if (0 <=? r) && (r <=? MaxLatin1) then
    ((0x09 <=? r) && (r <=? 0x0D)) || (r =? 0x20) || (r =? 0x85) || (r =? 0xA0)
  else
    (r =? 0x1680) || ((0x2000 <=? r) && (r <=? 0x200A)) || (r =? 0x2028)
    || (r =? 0x2029) || (r =? 0x202F) || (r =? 0x205F) || (r =? 0x3000).

End unicode.

Module strings.

Definition asciiSpace (c : Z) : bool :=
  ((0x09 <=? c) && (c <=? 0x0D) || (c =? 0x20))%Z.

(** [indexFunc(s, f, truth)]: [for i, r := range s], one byte at a time;
    [skip] counts the remaining bytes of the rune just decoded. *)
Fixpoint indexFunc_loop (f : Z -> bool) (truth : bool) (skip i : nat) (s : string)
  : option nat :=
  match s with
  | EmptyString => None
  | String _ s' =>
      match skip with
      | S k => indexFunc_loop f truth k (S i) s'
      | O =>
          let '(r, w) := utf8.DecodeRuneInString s in
          if Bool.eqb (f r) truth then Some i
          else indexFunc_loop f truth (w - 1) (S i) s'
      end
  end.

Definition indexFunc (s : string) (f : Z -> bool) (truth : bool) : option nat :=
  indexFunc_loop f truth 0 0 s.

(** [lastIndexFunc(s, f, truth)]: [for i := len(s); i > 0;], one byte at a
    time from the end, with the same [skip] counter. *)
Fixpoint lastIndexFunc_loop (f : Z -> bool) (truth : bool) (s : string) (skip i : nat)
  : option nat :=
  match i with
  | O => None
  | S i' =>
      match skip with
      | S k => lastIndexFunc_loop f truth s k i'
      | O =>
          let '(r, size) := utf8.DecodeLastRuneInString (slice_to i s) in
          if Bool.eqb (f r) truth then Some (i - size)
          else lastIndexFunc_loop f truth s (size - 1) i'
      end
  end.

Definition lastIndexFunc (s : string) (f : Z -> bool) (truth : bool) : option nat :=
  lastIndexFunc_loop f truth s 0 (String.length s).

Definition TrimLeftFunc (s : string) (f : Z -> bool) : string :=
  match indexFunc s f false with
  | None => EmptyString
  | Some i => slice_from i s
  end.

Definition TrimRightFunc (s : string) (f : Z -> bool) : string :=
  match lastIndexFunc s f false with
  | Some i =>
      if (utf8.RuneSelf <=? byte_at s (Z.of_nat i))%Z then
        let '(_, wid) := utf8.DecodeRuneInString (slice_from i s) in
        slice_to (i + wid) s
      else slice_to (S i) s
  | None => EmptyString
  end.

Definition TrimFunc (s : string) (f : Z -> bool) : string :=
  TrimRightFunc (TrimLeftFunc s f) f.

(** The second loop of [TrimSpace], on [s[start:]] read from its end:
    [stop] bytes are left. *)
Fixpoint TrimSpace_stop (s : string) (stop : nat) : string :=
  match stop with
  | O => EmptyString
  | S stop' =>
      let c := byte_at s (Z.of_nat stop') in
      if (utf8.RuneSelf <=? c)%Z then TrimRightFunc (slice_to stop s) unicode.IsSpace
      else if asciiSpace c then TrimSpace_stop s stop'
      else slice_to stop s
  end.

(** The first loop of [TrimSpace], then the second on what is left. *)
Fixpoint TrimSpace (s : string) : string :=
  match s with
  | EmptyString => EmptyString
  | String c s' =>
      if (utf8.RuneSelf <=? byte_val c)%Z then TrimFunc s unicode.IsSpace
      else if asciiSpace (byte_val c) then TrimSpace s'
      else TrimSpace_stop s (String.length s)
  end.

End strings.

(** ** strconv.Quote *)

Module strconv.
Local Open Scope Z_scope.

Definition lowerhex (x : Z) : ascii :=
  match String.get (Z.to_nat x) "0123456789abcdef" with
  | Some c => c
  | None => "0"%char
  end.

Section IsPrint.
(** The tables [isPrint16], [isNotPrint16], [isPrint32], [isNotPrint32] of
    strconv, consulted for runes above U+00FF only. *)
Variable isPrintTables : Z -> bool.

Definition IsPrint (r : Z) : bool :=
  if r <=? 0xFF then
    if (0x20 <=? r) && (r <=? 0x7E) then true
    else if (0xA1 <=? r) && (r <=? 0xFF) then negb (r =? 0xAD)
    else false
  else isPrintTables r.

Definition hex_digits (r : Z) (shifts : list Z) : string :=
  string_of_list_ascii (map (fun s => lowerhex (Z.land (Z.shiftr r s) 0xF)) shifts).

(** [appendEscapedRune(buf, r, quote, false, false)], as the bytes appended. *)
Definition appendEscapedRune (r : Z) (quote : ascii) : string :=
  if (r =? byte_val quote) || (r =? 0x5C) then String "\"%char (String (byte_of r) EmptyString)
  else if IsPrint r then utf8.EncodeRune r
  else if r =? 0x07 then "\a"
  else if r =? 0x08 then "\b"
  else if r =? 0x0C then "\f"
  else if r =? 0x0A then "\n"
  else if r =? 0x0D then "\r"
  else if r =? 0x09 then "\t"
  else if r =? 0x0B then "\v"
  else if (r <? 0x20) || (r =? 0x7F) then
    String "\"%char (String "x"%char (hex_digits r [4; 0]))
  else
    let r := if utf8.ValidRune r then r else 0xFFFD in
    if r <? 0x10000 then String "\"%char (String "u"%char (hex_digits r [12; 8; 4; 0]))
    else String "\"%char (String "U"%char (hex_digits r [28; 24; 20; 16; 12; 8; 4; 0])).

(** The loop of [appendQuotedWith]: [for width := 0; len(s) > 0; s = s[width:]],
    one byte at a time; [skip] counts the remaining bytes of the rune just
    handled. *)
Fixpoint appendQuotedWith_loop (quote : ascii) (skip : nat) (s : string) : string :=
  match s with
  | EmptyString => EmptyString
  | String c s' =>
      match skip with
      | S k => appendQuotedWith_loop quote k s'
      | O =>
          let '(r, width) :=
            if byte_val c <? utf8.RuneSelf then (byte_val c, 1%nat)
            else utf8.DecodeRuneInString s in
          (if (width =? 1)%nat && (r =? utf8.RuneError)
           then String "\"%char (String "x"%char (hex_digits (byte_val c) [4; 0]))
           else appendEscapedRune r quote)
          ++ appendQuotedWith_loop quote (width - 1) s'
      end
  end.

Definition dquote : ascii := ascii_of_nat 34.

Definition Quote (s : string) : string :=
  String dquote (appendQuotedWith_loop dquote 0 s ++ String dquote EmptyString).

End IsPrint.
End strconv.

(** ** Errors *)

(** A Go [error] value, by where it was made: with [fmt.Errorf] in this
    package (the formatted message), or by one of the imported packages. *)
Inductive error : Type :=
| fmt_Errorf (msg : string)
| json_error (msg : string)
| yaml_error (msg : string)
| template_error (msg : string).

(** [s[lo:hi]] *)
Definition slice (lo hi : nat) (s : string) : string :=
  slice_to (hi - lo) (slice_from lo s).

(** ** The escaping substitutor: [Render.replaceWithFastTemplate] *)

Section FastTemplate.
Variable isPrintTables : Z -> bool.

(** The closure passed to [ExecuteFuncString]; the captured variable
    [unresolvedErr] is its state. *)
Definition replaceWithFastTemplate_func (replaceMap : gmap string string)
    (allowUnresolved : bool) : fasttemplate.TagFunc (option error) error :=
  fun w tag unresolvedErr =>
    let trimmedTag := strings.TrimSpace tag in
    let '(replacement, ok) :=
      match replaceMap !! trimmedTag with
      | Some v => (v, true)
      | None => ("", false)
      end in
    if (String.length trimmedTag =? 0)%nat || negb ok then
      if allowUnresolved then
        (* just write the same string back *)
        let b := "{{" ++ tag ++ "}}" in
        ((w ++ b, unresolvedErr), (String.length b, None))
      else
        ((w, Some (fmt_Errorf ("failed to resolve {{" ++ tag ++ "}}"))), (0, None))
    else
      let replacement := strconv.Quote isPrintTables replacement in
      let replacement := slice 1 (String.length replacement - 1) replacement in
      ((w ++ replacement, unresolvedErr), (String.length replacement, None)).

(** The output of [ExecuteFuncString] and the final [unresolvedErr], before
    the error check. *)
Definition replaceWithFastTemplate_exec (fstTmpl : fasttemplate.Template)
    (replaceMap : gmap string string) (allowUnresolved : bool)
  : outcome (string * option error) :=
  fasttemplate.ExecuteFuncString fstTmpl
    (replaceWithFastTemplate_func replaceMap allowUnresolved) None.

Definition replaceWithFastTemplate (fstTmpl : fasttemplate.Template)
    (replaceMap : gmap string string) (allowUnresolved : bool)
  : outcome (string * option error) :=
  '(replacedTmpl, unresolvedErr) ← replaceWithFastTemplate_exec fstTmpl replaceMap allowUnresolved;
  match unresolvedErr with
  | Some e => Returned ("", Some e)
  | None => Returned (replacedTmpl, None)
  end.

End FastTemplate.

(** ** text/template: text and field references

    The parse tree of a template: literal text, a field chain [{{.a.b}}]
    evaluated on the data, and any other action, given by what it writes
    (or the message of the error it fails with) under the template's
    [missingkey] option and data. *)

Module template.

Inductive missingKeyAction : Type := mapInvalid | mapZeroValue | mapError.

Inductive Node : Type :=
| TextNode (text : string)
| FieldNode (ident : list string)
| ActionNode (run : missingKeyAction -> gmap string string -> string + string).

Record Template : Type := mkTemplate {
  name : string;
  option_missingKey : missingKeyAction;
  Tree : list Node
}.

Definition New (name : string) : Template := mkTemplate name mapInvalid [].

(** [Template.Option]: an option it does not know makes it panic. *)
Definition Option_ (t : Template) (opt : string) : outcome Template :=
  if decide (opt = "missingkey=default") then Returned (mkTemplate (name t) mapInvalid (Tree t))
  else if decide (opt = "missingkey=invalid") then Returned (mkTemplate (name t) mapInvalid (Tree t))
  else if decide (opt = "missingkey=zero") then Returned (mkTemplate (name t) mapZeroValue (Tree t))
  else if decide (opt = "missingkey=error") then Returned (mkTemplate (name t) mapError (Tree t))
  else Panicked (panic_string ("unrecognized option: " ++ opt)).

(** The values a field chain on a [map[string]string] goes through. *)
Inductive value : Type :=
| VMap (m : gmap string string)
| VString (s : string)
| VInvalid.

(** [state.evalField] *)
Definition evalField (opt : missingKeyAction) (receiver : value) (fieldName : string)
  : value + string :=
  match receiver with
  | VInvalid =>
      match opt with
      | mapError => inr ("nil data; no entry for key " ++ fieldName)
      | _ => inl VInvalid
      end
  | VMap m =>
      match m !! fieldName with
      | Some v => inl (VString v)
      | None =>
          match opt with
          | mapInvalid => inl VInvalid
          | mapZeroValue => inl (VString "")   (* reflect.Zero of the element type *)
          | mapError => inr ("map has no entry for key " ++ fieldName)
          end
      end
  | VString _ => inr ("can't evaluate field " ++ fieldName ++ " in type string")
  end.

Fixpoint evalFieldChain (opt : missingKeyAction) (receiver : value) (ident : list string)
  : value + string :=
  match ident with
  | [] => inl receiver
  | f :: rest =>
      match evalField opt receiver f with
      | inl v => evalFieldChain opt v rest
      | inr e => inr e
      end
  end.

(** [state.printValue] on the values a field chain ends in. *)
Definition printValue (v : value) : string + string :=
  match v with
  | VString s => inl s
  | VInvalid => inl "<no value>"
  | VMap m => inr "map value"
  end.

(** [state.walk] over the top-level list: the first error stops the
    execution, with the output written so far left in the buffer. *)
Fixpoint walk (opt : missingKeyAction) (data : gmap string string) (nodes : list Node)
    (wr : string) : string * option error :=
  match nodes with
  | [] => (wr, None)
  | n :: rest =>
      let r :=
        match n with
        | TextNode text => inl text
        | FieldNode ident =>
            match evalFieldChain opt (VMap data) ident with
            | inl v => printValue v
            | inr e => inr e
            end
        | ActionNode run => run opt data
        end in
      match r with
      | inl out => walk opt data rest (wr ++ out)
      | inr e => (wr, Some (template_error e))
      end
  end.

Definition Execute (t : Template) (wr : string) (data : gmap string string)
  : string * option error :=
  walk (option_missingKey t) data (Tree t) wr.

(** Templates of text and single field references, and the text they
    stand for when a missing key reads as the empty string. *)
Definition plain (n : Node) : bool :=
  match n with
  | TextNode _ => true
  | FieldNode [_] => true
  | _ => false
  end.

Definition node_text (data : gmap string string) (n : Node) : string :=
  match n with
  | TextNode text => text
  | FieldNode [k] => default "" (data !! k)
  | _ => ""
  end.

Fixpoint tree_text (data : gmap string string) (nodes : list Node) : string :=
  match nodes with
  | [] => ""
  | n :: rest => node_text data n ++ tree_text data rest
  end.

End template.

(** ** The descriptors *)

(** The part of [metav1.ObjectMeta] the package reads or writes. [None] is
    a nil slice. *)
Record ObjectMeta : Type := mkObjectMeta {
  Name : string;
  Annotations : gmap string string;
  Finalizers : option (list string)
}.

(** Modelled from the spec: the sync policy of api/v1alpha1, "carries a
    single relevant boolean flag, PreserveResourcesOnDeletion". *)
Record ApplicationSetSyncPolicy : Type := mkSyncPolicy {
  PreserveResourcesOnDeletion : bool
}.

(** Modelled from the spec: the template options of api/v1alpha1, "carries
    a single relevant boolean flag, GotemplateEnabled". *)
Record ApplicationSetTemplateOptions : Type := mkTemplateOptions {
  GotemplateEnabled : bool
}.

Definition loc : Type := positive.

Section Render.
(** The rest of argo-cd's [Application] (its spec and status). *)
Variable ApplicationSpec : Type.

Record Application : Type := mkApplication {
  App_ObjectMeta : ObjectMeta;
  App_Spec : ApplicationSpec
}.

Definition set_Finalizers (f : option (list string)) (app : Application) : Application :=
  mkApplication
    (mkObjectMeta (Name (App_ObjectMeta app)) (Annotations (App_ObjectMeta app)) f)
    (App_Spec app).

Variable isPrintTables : Z -> bool.

(** encoding/json and sigs.k8s.io/yaml on an [Application]; [inr] carries
    the message of the error. *)
Variable json_Marshal : Application -> string + string.
Variable json_Unmarshal : string -> Application + string.
Variable yaml_Marshal : Application -> string + string.
Variable yaml_Unmarshal : string -> Application + string.
(** The parser of text/template, with sprig's functions declared. *)
Variable template_Parse : string -> list template.Node + string.

Definition Parse (t : template.Template) (text : string) : template.Template * option error :=
  match template_Parse text with
  | inl tree => (template.mkTemplate (template.name t) (template.option_missingKey t) tree, None)
  | inr e => (t, Some (template_error e))
  end.

(** [replaceWithGoTemplate] applies a parsed Go template to replacement values. *)
Definition replaceWithGoTemplate (goTemplate : template.Template)
    (replaceMap : gmap string string) : string * option error :=
  let '(tplString, err) := template.Execute goTemplate "" replaceMap in
  match err with
  | Some e => ("", Some e)
  | None => (tplString, None)
  end.

(** The two branches of [RenderTemplateParams] up to the deserialized
    object: [inl replacedTmpl], or [inr err] where the code returns
    [nil, err]. *)
Definition render_fasttemplate (tmpl : Application) (params : gmap string string)
  : outcome (Application + error) :=
  match json_Marshal tmpl with
  | inr e => Returned (inr (json_error e))
  | inl tmplBytes =>
      fstTmpl ← fasttemplate.New tmplBytes "{{" "}}";
      '(replacedTmplStr, err) ← replaceWithFastTemplate isPrintTables fstTmpl params true;
      match err with
      | Some e => Returned (inr e)
      | None =>
          match json_Unmarshal replacedTmplStr with
          | inr e => Returned (inr (json_error e))
          | inl replacedTmpl => Returned (inl replacedTmpl)
          end
      end
  end.

Definition render_gotemplate (tmpl : Application) (params : gmap string string)
  : outcome (Application + error) :=
  match yaml_Marshal tmpl with
  | inr e => Returned (inr (yaml_error e))
  | inl tmplBytes =>
      (* missingkey=zero - replace unmatched variables with "" *)
      t ← template.Option_ (template.New "argocd-app") "missingkey=zero";
      let '(goTemplate, err) := Parse t tmplBytes in
      match err with
      | Some e => Returned (inr e)
      | None =>
          let '(replacedTmplStr, err) := replaceWithGoTemplate goTemplate params in
          match err with
          | Some e => Returned (inr e)
          | None =>
              match yaml_Unmarshal replacedTmplStr with
              | inr e => Returned (inr (yaml_error e))
              | inl replacedTmpl => Returned (inl replacedTmpl)
              end
          end
      end
  end.

Definition resources_finalizer : string := "resources-finalizer.argocd.argoproj.io".

(** The finalizer rule on the deserialized object. *)
Definition add_finalizer (syncPolicy : option ApplicationSetSyncPolicy)
    (replacedTmpl : Application) : Application :=
  if (match syncPolicy with
      | None => true
      | Some sp => negb (PreserveResourcesOnDeletion sp)
      end)
     && (match Finalizers (App_ObjectMeta replacedTmpl) with
         | None => true
         | Some fs => (length fs =? 0)%nat
         end)
  then set_Finalizers (Some [resources_finalizer]) replacedTmpl
  else replacedTmpl.

(** The branch [RenderTemplateParams] takes on [GotemplateEnabled]. *)
Definition deserialize_rendered (templateOptions : option ApplicationSetTemplateOptions)
    (tmpl : Application) (params : gmap string string) : outcome (Application + error) :=
  if (match templateOptions with
      | None => true
      | Some o => negb (GotemplateEnabled o)
      end)
  then render_fasttemplate tmpl params
  else render_gotemplate tmpl params.

(** [RenderTemplateParams]: the heap [h] holds the [Application] objects;
    [tmpl] and the result are pointers into it ([None] is nil). *)
Definition RenderTemplateParams (tmpl : option loc)
    (syncPolicy : option ApplicationSetSyncPolicy)
    (templateOptions : option ApplicationSetTemplateOptions)
    (params : gmap string string) (h : gmap loc Application)
  : outcome ((option loc * option error) * gmap loc Application) :=
  match tmpl with
  | None => Returned ((None, Some (fmt_Errorf "application template is empty ")), h)
  | Some l =>
      if (size params =? 0)%nat then Returned ((Some l, None), h)
      else
        match h !! l with
        | None => Panicked panic_nil_dereference
        | Some app =>
            r ← deserialize_rendered templateOptions app params;
            match r with
            | inr err => Returned ((None, Some err), h)
            | inl replacedTmpl =>
                let replacedTmpl := add_finalizer syncPolicy replacedTmpl in
                let l' := fresh (dom h) in
                Returned ((Some l', None), <[l' := replacedTmpl]> h)
            end
        end
  end.

End Render.

Arguments mkApplication {ApplicationSpec}.
Arguments App_ObjectMeta {ApplicationSpec}.
Arguments App_Spec {ApplicationSpec}.
Arguments set_Finalizers {ApplicationSpec}.
Arguments add_finalizer {ApplicationSpec}.

(** ** The generator inspector *)

Section Inspector.
(** The payload of a generator variant, and Go's float64. *)
Variable Variant : Type.
Variable float64 : Type.

(** Modelled from the spec: a generator record of api/v1alpha1, "a
    polymorphic record where exactly one of several named optional variant
    slots is expected to be populated (non-null)": the slots in field
    order, [None] for a nil pointer.  Every slot is an exported field. *)
Definition ApplicationSetGenerator : Type := list (option Variant).

(** Modelled from the spec: the owner of the generators, with its "ordered
    generator sequence" and the annotations of its metadata. *)
Record ApplicationSet : Type := mkApplicationSet {
  Set_ObjectMeta : ObjectMeta;
  Generators : list ApplicationSetGenerator
}.

(** What [json.Unmarshal] stores in an [interface{}]. *)
#[local] Unset Elimination Schemes.
Inductive jvalue : Type :=
| JNull
| JBool (b : bool)
| JNumber (f : float64)
| JString (s : string)
| JArray (l : list jvalue)
| JObject (m : gmap string jvalue).
#[local] Set Elimination Schemes.

(** [json.Unmarshal] into a [map[string]interface{}]: the map (empty for
    JSON null), or the message of the error. *)
Variable json_Unmarshal_map : string -> gmap string jvalue + string.

(** The key a [for key := range m] visits first: Go leaves the order
    unspecified. *)
Variable range_first : gmap string jvalue -> option string.

(** reflect: [field.CanInterface()] holds for an exported field, and
    [reflect.ValueOf(field.Interface()).IsNil()] for a nil pointer. *)
Definition CanInterface (field : option Variant) : bool := true.
Definition IsNil (field : option Variant) : bool :=
  match field with
  | None => true
  | Some _ => false
  end.

(** The inner loop of [invalidGenerators], over the fields from [i] on. *)
Fixpoint found_loop (fields : list (option Variant)) : bool :=
  match fields with
  | [] => false
  | field :: rest =>
      if negb (CanInterface field) then found_loop rest
      else if negb (IsNil field) then true
      else found_loop rest
  end.

Definition last_applied_configuration : string :=
  "kubectl.kubernetes.io/last-applied-configuration".

Definition addInvalidGeneratorNames (names : gmap string bool)
    (applicationSetInfo : ApplicationSet) (index : nat) : gmap string bool :=
  (* The generator names are stored in the last-applied-configuration annotation *)
  let config :=
    default "" (Annotations (Set_ObjectMeta applicationSetInfo) !! last_applied_configuration) in
  match json_Unmarshal_map config with
  | inr _ => names
  | inl values =>
      match values !! "spec" with
      | Some (JObject spec) =>
          match spec !! "generators" with
          | Some (JArray generators) =>
              if (length generators <=? index)%nat then names
              else
                match generators !! index with
                | Some (JObject generator) =>
                    match range_first generator with
                    | Some key => <[key := true]> names
                    | None => names
                    end
                | _ => names
                end
          | _ => names
          end
      | _ => names
      end
  end.

(** The text [addInvalidGeneratorNames] parses: the annotation, or the
    empty string when the annotation is missing. *)
Definition config_of (applicationSetInfo : ApplicationSet) : string :=
  default "" (Annotations (Set_ObjectMeta applicationSetInfo) !! last_applied_configuration).

Fixpoint invalidGenerators_loop (applicationSetInfo : ApplicationSet) (index : nat)
    (generators : list ApplicationSetGenerator)
    (hasInvalidGenerators : bool) (names : gmap string bool)
  : bool * gmap string bool :=
  match generators with
  | [] => (hasInvalidGenerators, names)
  | generator :: rest =>
      let found := found_loop generator in
      if negb found then
        invalidGenerators_loop applicationSetInfo (S index) rest true
          (addInvalidGeneratorNames names applicationSetInfo index)
      else
        invalidGenerators_loop applicationSetInfo (S index) rest hasInvalidGenerators names
  end.

(** Return true if there are unknown generators specified in the
    application set, and the names of those that could be discovered. *)
Definition invalidGenerators (applicationSetInfo : ApplicationSet) : bool * gmap string bool :=
  invalidGenerators_loop applicationSetInfo 0 (Generators applicationSetInfo) false ∅.

End Inspector.

Arguments JNull {float64}.
Arguments JBool {float64}.
Arguments JNumber {float64}.
Arguments JString {float64}.
Arguments JArray {float64}.
Arguments JObject {float64}.
Arguments mkApplicationSet {Variant}.
Arguments Set_ObjectMeta {Variant}.
Arguments Generators {Variant}.
Arguments found_loop {Variant}.
Arguments config_of {Variant}.

(** A table instance, for running the model: under it no rune above
    U+00FF is printable.  On ASCII values the tables are never read. *)
Definition no_wide_print : Z -> bool := fun _ => false.

(** ** Tokens: what a parsed template is, and what substituting it gives *)

(** The texts and tags [ExecuteFunc] goes through: a template without any
    start tag has no [texts], and is written out whole. *)
Definition tokens_of (t : fasttemplate.Template) : list string * list string :=
  match fasttemplate.texts t with
  | [] => ([fasttemplate.template t], [])
  | _ => (fasttemplate.texts t, fasttemplate.tags t)
  end.

(** [ExecuteFunc] on a token sequence: texts and tag function in turn. *)
Fixpoint run_tokens {St Err : Type} (f : fasttemplate.TagFunc St Err)
    (texts tags : list string) (w : string) (st : St) : (string * St) * option Err :=
  match texts with
  | [] => ((w, st), None)
  | text :: texts' =>
      match tags with
      | [] => ((w ++ text, st), None)
      | tag :: tags' =>
          let '((w', st'), (_, err)) := f (w ++ text) tag st in
          match err with
          | Some e => ((w', st'), Some e)
          | None => run_tokens f texts' tags' w' st'
          end
      end
  end.

(** [text0 {{tag0}} text1 {{tag1}} ... textn] *)
Fixpoint join (texts tags : list string) : string :=
  match texts with
  | [] => ""
  | text :: texts' =>
      match tags with
      | [] => text
      | tag :: tags' => text ++ "{{" ++ tag ++ "}}" ++ join texts' tags'
      end
  end.

(** [p] holds no occurrence of [sep], also not one that starts in [p] and
    ends in a [sep] that follows it. *)
Definition first_at (sep p : string) : Prop :=
  forall q, Index (p ++ sep ++ q) sep = Some (String.length p).

Inductive wf_tokens : list string -> list string -> Prop :=
| wf_tokens_last text :
    Index text "{{" = None -> wf_tokens [text] []
| wf_tokens_cons text tag texts tags :
    first_at "{{" text -> first_at "}}" tag -> wf_tokens texts tags ->
    wf_tokens (text :: texts) (tag :: tags).

(** A tag is unresolved when its trimmed content is empty or is no key of
    the mapping. *)
Definition unresolved (replaceMap : gmap string string) (tag : string) : bool :=
  (String.length (strings.TrimSpace tag) =? 0)%nat
  || negb (bool_decide (is_Some (replaceMap !! strings.TrimSpace tag))).

(** The error the substitutor reports for a tag it could not resolve. *)
Definition unresolved_error (tag : string) : error :=
  fmt_Errorf ("failed to resolve {{" ++ tag ++ "}}").

(** The last unresolved tag in scan order. *)
Fixpoint last_unresolved (replaceMap : gmap string string) (tags : list string)
  : option string :=
  match tags with
  | [] => None
  | tag :: tags' =>
      match last_unresolved replaceMap tags' with
      | Some t => Some t
      | None => if unresolved replaceMap tag then Some tag else None
      end
  end.

Section Substitution.
Variable isPrintTables : Z -> bool.

(** A value with its special characters escaped: the inside of its quoted form. *)
Definition escape (v : string) : string :=
  strconv.appendQuotedWith_loop isPrintTables strconv.dquote 0 v.

(** What the substitutor writes for one tag. *)
Definition piece (replaceMap : gmap string string) (allowUnresolved : bool) (tag : string)
  : string :=
  if unresolved replaceMap tag then
    if allowUnresolved then "{{" ++ tag ++ "}}" else ""
  else escape (default "" (replaceMap !! strings.TrimSpace tag)).

(** The substituted text of a token sequence. *)
Fixpoint render (replaceMap : gmap string string) (allowUnresolved : bool)
    (texts tags : list string) : string :=
  match texts with
  | [] => ""
  | text :: texts' =>
      match tags with
      | [] => text
      | tag :: tags' =>
          text ++ piece replaceMap allowUnresolved tag
          ++ render replaceMap allowUnresolved texts' tags'
      end
  end.

End Substitution.

(** ** encoding/json: string literals *)

Module json.
Local Open Scope Z_scope.

Definition dq : string := String strconv.dquote EmptyString.

Definition hex (x : Z) : ascii := strconv.lowerhex x.

(** [htmlSafeSet]: the ASCII bytes written as they are. *)
Definition htmlSafe (b : Z) : bool :=
  (0x20 <=? b) && negb (b =? 0x22) && negb (b =? 0x5C)
  && negb (b =? 0x3C) && negb (b =? 0x3E) && negb (b =? 0x26).

(** The loop of [appendString] with [escapeHTML] set, one byte at a time;
    [copy] counts the remaining bytes of the rune being copied. *)
Fixpoint appendString_loop (copy : nat) (src : string) : string :=
  match src with
  | EmptyString => EmptyString
  | String c src' =>
      match copy with
      | S k => String c (appendString_loop k src')
      | O =>
          let b := byte_val c in
          if b <? utf8.RuneSelf then
            let out :=
              if htmlSafe b then String c EmptyString
              else if (b =? 0x5C) || (b =? 0x22) then String "\"%char (String c EmptyString)
              else if b =? 0x08 then "\b"%string
              else if b =? 0x0C then "\f"%string
              else if b =? 0x0A then "\n"%string
              else if b =? 0x0D then "\r"%string
              else if b =? 0x09 then "\t"%string
              else String.append "\u00"
                     (String (hex (Z.shiftr b 4)) (String (hex (Z.land b 0xF)) EmptyString)) in
            String.append out (appendString_loop 0 src')
          else
            let '(r, size) := utf8.DecodeRuneInString (slice_to utf8.UTFMax src) in
            if (r =? utf8.RuneError) && (size =? 1)%nat
            then String.append "\ufffd" (appendString_loop 0 src')
            else if (r =? 0x2028) || (r =? 0x2029)
            then String.append
                   (String.append "\u202" (String (hex (Z.land r 0xF)) EmptyString))
                   (appendString_loop (size - 1) src')
            else String c (appendString_loop (size - 1) src')
      end
  end.

(** A Go string as a JSON string literal. *)
Definition quote (s : string) : string :=
  String.append dq (String.append (appendString_loop 0 s) dq).

Definition hex_val (c : ascii) : option Z :=
  let b := byte_val c in
  if (0x30 <=? b) && (b <=? 0x39) then Some (b - 0x30)
  else if (0x61 <=? b) && (b <=? 0x66) then Some (b - 0x61 + 10)
  else if (0x41 <=? b) && (b <=? 0x46) then Some (b - 0x41 + 10)
  else None.

(** [getu4]: the number in a leading [\uXXXX], [None] for Go's [-1]. *)
Definition getu4 (s : string) : option Z :=
  match s with
  | String "\"%char (String "u"%char (String a (String b (String c (String d _))))) =>
      va ← hex_val a; vb ← hex_val b; vc ← hex_val c; vd ← hex_val d;
      Some (((va * 16 + vb) * 16 + vc) * 16 + vd)
  | _ => None
  end.

(** unicode/utf16 *)
Definition IsSurrogate (r : Z) : bool := (0xD800 <=? r) && (r <? 0xE000).
Definition utf16_DecodeRune (r1 r2 : Z) : Z :=
  if (0xD800 <=? r1) && (r1 <? 0xDC00) && (0xDC00 <=? r2) && (r2 <? 0xE000)
  then Z.lor (Z.shiftl (r1 - 0xD800) 10) (r2 - 0xDC00) + 0x10000
  else utf8.RuneError.

(** The loop of [unquoteBytes] over the inside of the literal, one byte at
    a time; [skip] counts the bytes already consumed ahead. *)
Fixpoint unquote_loop (skip : nat) (s : string) : option string :=
  match s with
  | EmptyString => Some EmptyString
  | String c s' =>
      match skip with
      | S k => unquote_loop k s'
      | O =>
          let b := byte_val c in
          if b =? 0x5C then
            match s' with
            | EmptyString => None
            | String e _ =>
                let eb := byte_val e in
                if (eb =? 0x22) || (eb =? 0x5C) || (eb =? 0x2F) || (eb =? 0x27)
                then String e <$> unquote_loop 1 s'
                else if eb =? 0x62 then String (byte_of 0x08) <$> unquote_loop 1 s'
                else if eb =? 0x66 then String (byte_of 0x0C) <$> unquote_loop 1 s'
                else if eb =? 0x6E then String (byte_of 0x0A) <$> unquote_loop 1 s'
                else if eb =? 0x72 then String (byte_of 0x0D) <$> unquote_loop 1 s'
                else if eb =? 0x74 then String (byte_of 0x09) <$> unquote_loop 1 s'
                else if eb =? 0x75 then
                  match getu4 s with
                  | None => None
                  | Some rr =>
                      if IsSurrogate rr then
                        let dec :=
                          match getu4 (slice_from 6 s) with
                          | Some rr1 => utf16_DecodeRune rr rr1
                          | None => utf8.RuneError
                          end in
                        if negb (dec =? utf8.RuneError)
                        then String.append (utf8.EncodeRune dec) <$> unquote_loop 11 s'
                        else String.append (utf8.EncodeRune utf8.RuneError) <$> unquote_loop 5 s'
                      else String.append (utf8.EncodeRune rr) <$> unquote_loop 5 s'
                  end
                else None
            end
          else if (b =? 0x22) || (b <? 0x20) then None
          else if b <? utf8.RuneSelf then String c <$> unquote_loop 0 s'
          else
            let '(rr, size) := utf8.DecodeRuneInString s in
            String.append (utf8.EncodeRune rr) <$> unquote_loop (size - 1) s'
      end
  end.

(** [unquote]: the Go string a JSON string literal stands for. *)
Definition unquote (s : string) : option string :=
  let n := String.length s in
  if (n <? 2)%nat then None
  else if negb (String.eqb (slice_to 1 s) dq) then None
  else if negb (String.eqb (slice_from (n - 1) s) dq) then None
  else unquote_loop 0 (slice 1 (n - 1) s).

End json.

(** Bytes whose escaped form a JSON string literal reads back: printable
    ASCII, and the control characters that have a short escape in both. *)
Definition json_safe (c : ascii) : bool :=
  let b := byte_val c in
  ((0x20 <=? b) && (b <=? 0x7E) || (b =? 0x08) || (b =? 0x09) || (b =? 0x0A)
   || (b =? 0x0C) || (b =? 0x0D))%Z.

Fixpoint all_bytes (p : ascii -> bool) (s : string) : bool :=
  match s with
  | EmptyString => true
  | String c s' => p c && all_bytes p s'
  end.

(** ** An instance of the codecs

    A descriptor that carries a name and finalizers only (no annotations,
    a spec without content), with a JSON document of one object, metadata,
    that holds the name and, when there are any, the finalizers; the same
    document as its YAML form; and templates made of text and single field
    references.  The renderer is run on it below. *)

Module Mini.

Definition App : Type := Application unit.

Definition mkApp (name : string) (finalizers : option (list string)) : App :=
  mkApplication (mkObjectMeta name ∅ finalizers) tt.

Definition q (s : string) : string := json.dq ++ s ++ json.dq.

Definition doc_open : string := "{" ++ q "metadata" ++ ":{" ++ q "name" ++ ":".
Definition doc_finalizers : string := "," ++ q "finalizers" ++ ":[".
Definition doc_close : string := "}}".

Fixpoint join_comma (l : list string) : string :=
  match l with
  | [] => ""
  | [x] => x
  | x :: l' => x ++ "," ++ join_comma l'
  end.

Definition Marshal (app : App) : string + string :=
  inl (doc_open ++ json.quote (Name (App_ObjectMeta app))
       ++ match Finalizers (App_ObjectMeta app) with
          | Some (f :: fs) => doc_finalizers ++ join_comma (map json.quote (f :: fs)) ++ "]"
          | _ => ""
          end
       ++ doc_close).

Definition strip_prefix (pre s : string) : option string :=
  if HasPrefix s pre then Some (slice_from (String.length pre) s) else None.

(** The index of the quote that closes a string literal, in the text after
    its opening quote. *)
Fixpoint literal_end (escaped : bool) (s : string) : option nat :=
  match s with
  | EmptyString => None
  | String c s' =>
      if escaped then S <$> literal_end false s'
      else if ascii_dec c "\"%char then S <$> literal_end true s'
      else if ascii_dec c strconv.dquote then Some 0
      else S <$> literal_end false s'
  end.

Definition read_string (s : string) : option (string * string) :=
  match s with
  | String c s' =>
      if ascii_dec c strconv.dquote then
        n ← literal_end false s';
        v ← json.unquote (slice_to (n + 2) s);
        Some (v, slice_from (n + 2) s)
      else None
  | EmptyString => None
  end.

Fixpoint read_strings (fuel : nat) (s : string) : option (list string * string) :=
  match fuel with
  | 0 => None
  | S fuel' =>
      '(v, rest) ← read_string s;
      match rest with
      | String c rest' =>
          if ascii_dec c ","%char then
            '(vs, rest'') ← read_strings fuel' rest';
            Some (v :: vs, rest'')
          else if ascii_dec c "]"%char then Some ([v], rest')
          else None
      | EmptyString => None
      end
  end.

Definition Unmarshal (s : string) : App + string :=
  match
    s1 ← strip_prefix doc_open s;
    '(name, s2) ← read_string s1;
    if decide (s2 = doc_close) then Some (mkApp name None)
    else
      s3 ← strip_prefix doc_finalizers s2;
      '(fs, s4) ←
        (match strip_prefix "]" s3 with
         | Some s4 => Some ([], s4)
         | None => read_strings (String.length s3) s3
         end);
      if decide (s4 = doc_close) then Some (mkApp name (Some fs)) else None
  with
  | Some app => inl app
  | None => inr "cannot unmarshal the document"
  end.

(** Templates of text and [{{.field}}] actions. *)
Fixpoint nodes (texts tags : list string) : option (list template.Node) :=
  match texts with
  | [] => Some []
  | text :: texts' =>
      match tags with
      | [] => Some [template.TextNode text]
      | tag :: tags' =>
          match strings.TrimSpace tag with
          | String "."%char field =>
              rest ← nodes texts' tags';
              Some (template.TextNode text :: template.FieldNode [field] :: rest)
          | _ => None
          end
      end
  end.

Definition Parse (text : string) : list template.Node + string :=
  match fasttemplate.New text "{{" "}}" with
  | Returned t =>
      match nodes (tokens_of t).1 (tokens_of t).2 with
      | Some tree => inl tree
      | None => inr "unexpected action"
      end
  | _ => inr "unclosed action"
  end.

(** [RenderTemplateParams] on this instance. *)
Definition Render :=
  RenderTemplateParams unit no_wide_print Marshal Unmarshal Marshal Unmarshal Parse.

End Mini.

(** ** An instance of the inspector's parser

    A reader of JSON texts whose numbers are integers, with the first key
    in the order of [map_to_list] as the key a [range] visits first. *)

Module MiniJSON.

Definition is_ws (c : ascii) : bool :=
  let b := byte_val c in ((b =? 0x20) || (b =? 0x09) || (b =? 0x0A) || (b =? 0x0D))%Z.

Fixpoint skip_ws (s : string) : string :=
  match s with
  | String c s' => if is_ws c then skip_ws s' else s
  | EmptyString => s
  end.

Definition is_digit (c : ascii) : bool :=
  let b := byte_val c in ((0x30 <=? b) && (b <=? 0x39))%Z.

Fixpoint read_digits (acc : Z) (s : string) : Z * string :=
  match s with
  | String c s' =>
      if is_digit c then read_digits (acc * 10 + (byte_val c - 0x30))%Z s' else (acc, s)
  | EmptyString => (acc, s)
  end.

Definition read_number (s : string) : option (Z * string) :=
  match s with
  | String c s' =>
      if Ascii.eqb c "-"%char then
        match s' with
        | String d _ => if is_digit d then let '(n, rest) := read_digits 0 s' in Some ((- n)%Z, rest) else None
        | EmptyString => None
        end
      else if is_digit c then Some (read_digits 0 s)
      else None
  | EmptyString => None
  end.

Fixpoint read_value (fuel : nat) (s : string) : option (jvalue Z * string) :=
  match fuel with
  | 0 => None
  | S fuel' =>
      match skip_ws s with
      | String c s' =>
          if Ascii.eqb c "{"%char then
            match skip_ws s' with
            | String d rest =>
                if Ascii.eqb d "}"%char then Some (JObject ∅, rest)
                else '(m, rest) ← read_members fuel' (skip_ws s') ∅; Some (JObject m, rest)
            | EmptyString => None
            end
          else if Ascii.eqb c "["%char then
            match skip_ws s' with
            | String d rest =>
                if Ascii.eqb d "]"%char then Some (JArray [], rest)
                else '(l, rest) ← read_elements fuel' (skip_ws s'); Some (JArray l, rest)
            | EmptyString => None
            end
          else if Ascii.eqb c strconv.dquote then
            '(v, rest) ← Mini.read_string (skip_ws s); Some (JString v, rest)
          else if HasPrefix (skip_ws s) "true" then Some (JBool true, slice_from 4 (skip_ws s))
          else if HasPrefix (skip_ws s) "false" then Some (JBool false, slice_from 5 (skip_ws s))
          else if HasPrefix (skip_ws s) "null" then Some (JNull, slice_from 4 (skip_ws s))
          else '(n, rest) ← read_number (skip_ws s); Some (JNumber n, rest)
      | EmptyString => None
      end
  end
with read_elements (fuel : nat) (s : string) : option (list (jvalue Z) * string) :=
  match fuel with
  | 0 => None
  | S fuel' =>
      '(v, rest) ← read_value fuel' s;
      match skip_ws rest with
      | String c rest' =>
          if Ascii.eqb c ","%char then
            '(l, rest'') ← read_elements fuel' rest'; Some (v :: l, rest'')
          else if Ascii.eqb c "]"%char then Some ([v], rest')
          else None
      | EmptyString => None
      end
  end
with read_members (fuel : nat) (s : string) (m : gmap string (jvalue Z))
  : option (gmap string (jvalue Z) * string) :=
  match fuel with
  | 0 => None
  | S fuel' =>
      '(k, rest) ← Mini.read_string (skip_ws s);
      match skip_ws rest with
      | String c rest' =>
          if Ascii.eqb c ":"%char then
            '(v, rest'') ← read_value fuel' rest';
            match skip_ws rest'' with
            | String d rest3 =>
                if Ascii.eqb d ","%char then read_members fuel' rest3 (<[k := v]> m)
                else if Ascii.eqb d "}"%char then Some (<[k := v]> m, rest3)
                else None
            | EmptyString => None
            end
          else None
      | EmptyString => None
      end
  end.

Definition Unmarshal_map (s : string) : gmap string (jvalue Z) + string :=
  match read_value (2 * String.length s + 2) s with
  | Some (v, rest) =>
      match skip_ws rest with
      | EmptyString =>
          match v with
          | JObject m => inl m
          | JNull => inl ∅
          | _ => inr "json: cannot unmarshal into Go value of type map[string]interface {}"
          end
      | _ => inr "invalid character after top-level value"
      end
  | None => inr "invalid JSON text"
  end.

Definition range_first (m : gmap string (jvalue Z)) : option string :=
  fst <$> head (map_to_list m).

Definition addNames :=
  addInvalidGeneratorNames unit Z Unmarshal_map range_first.

Definition inspect :=
  invalidGenerators unit Z Unmarshal_map range_first.

Definition owner (annotations : gmap string string)
    (generators : list (list (option unit))) : ApplicationSet unit :=
  mkApplicationSet (mkObjectMeta "set" annotations None) generators.

End MiniJSON.

(** ** Predicates used to state further properties *)

(** The bytes [strings.TrimSpace] removes on its ASCII path. *)
Definition ascii_space (c : ascii) : bool := strings.asciiSpace (byte_val c).

(** A tag whose trimmed content is not empty and is a key of the mapping. *)
Definition resolved (replaceMap : gmap string string) (tag : string) : Prop :=
  String.length (strings.TrimSpace tag) <> 0
  /\ is_Some (replaceMap !! strings.TrimSpace tag).

(** A byte that is no control character: not below 0x20, and not DEL. *)
Definition not_control (c : ascii) : bool :=
  ((0x20 <=? byte_val c) && negb (byte_val c =? 0x7F))%Z.

(** [templateOptions] selects the JSON branch. *)
Definition fasttemplate_selected (templateOptions : option ApplicationSetTemplateOptions) : bool :=
  match templateOptions with
  | None => true
  | Some o => negb (GotemplateEnabled o)
  end.

(** ** [CheckInvalidGenerators] *)

(** [strings.Join] *)
Fixpoint Join (elems : list string) (sep : string) : string :=
  match elems with
  | [] => ""
  | [x] => x
  | x :: rest => x ++ sep ++ Join rest sep
  end.

(** [sort.Strings], by what it leaves in the slice: the strings in
    increasing byte order. *)
Definition sort_Strings (l : list string) : list string := merge_sort String.le l.

Section CheckInvalidGenerators.
Variable Variant : Type.
Variable float64 : Type.
Variable json_Unmarshal_map : string -> gmap string (jvalue float64) + string.
Variable range_first : gmap string (jvalue float64) -> option string.
(** The keys of the names in the order [for n := range invalidGenerators]
    visits them. *)
Variable range_keys : gmap string bool -> list string.

(** Log a warning if there are unrecognized generators: the result is the
    list of the lines [log.Warnf] writes. *)
Definition CheckInvalidGenerators (applicationSetInfo : ApplicationSet Variant) : list string :=
  let '(hasInvalidGenerators, invalidGenerators) :=
    invalidGenerators Variant float64 json_Unmarshal_map range_first applicationSetInfo in
  if (0 <? size invalidGenerators)%nat then
    let gnames := range_keys invalidGenerators in
    let gnames := sort_Strings gnames in
    let aname := Name (Set_ObjectMeta applicationSetInfo) in
    ["ApplicationSet " ++ aname ++ " contains unrecognized generators: " ++ Join gnames ", "]
  else if hasInvalidGenerators then
    let name := Name (Set_ObjectMeta applicationSetInfo) in
    ["ApplicationSet " ++ name ++ " contains unrecognized generators"]
  else [].

(** The annotation yields the name [key] at [index]: every step of
    [addInvalidGeneratorNames] goes through. *)
Definition recovers (applicationSetInfo : ApplicationSet Variant) (index : nat) (key : string)
  : Prop :=
  exists values spec generators generator,
    json_Unmarshal_map (config_of applicationSetInfo) = inl values
    /\ values !! "spec" = Some (JObject spec)
    /\ spec !! "generators" = Some (JArray generators)
    /\ generators !! index = Some (JObject generator)
    /\ range_first generator = Some key.

(** The generator at [index] has no slot populated. *)
Definition unrecognized (applicationSetInfo : ApplicationSet Variant) (index : nat) : Prop :=
  exists generator,
    Generators applicationSetInfo !! index = Some generator
    /\ Forall (fun slot => slot = None) generator.

(** The annotation yields [key] at the index of a generator with no slot
    populated. *)
Definition named (applicationSetInfo : ApplicationSet Variant) (key : string) : Prop :=
  exists index, unrecognized applicationSetInfo index /\ recovers applicationSetInfo index key.

End CheckInvalidGenerators.

(** An annotation that names three generators, and an application set that
    carries it: the first generator has a slot populated, the other two
    have none. *)
Definition sample_config : string :=
  "{" ++ Mini.q "spec" ++ ":{" ++ Mini.q "generators" ++ ":[{" ++ Mini.q "list" ++ ":{}},{"
    ++ Mini.q "zeta" ++ ":{}},{" ++ Mini.q "alpha" ++ ":{}}]}}".

Definition sample_owner : ApplicationSet unit :=
  MiniJSON.owner (<[last_applied_configuration := sample_config]> ∅)
    [[Some tt; None]; [None; None]; [None; None]].

Definition keys_in_order (names : gmap string bool) : list string := (map_to_list names).*1.

(** * Proofs *)

(** ** Strings *)

Lemma append_nil_r (s : string) : s ++ "" = s.
Proof. induction s; simpl; congruence. Qed.

Lemma append_assoc (a b c : string) : (a ++ b) ++ c = a ++ (b ++ c).
Proof. induction a; simpl; congruence. Qed.

Lemma length_append (a b : string) :
  String.length (a ++ b) = String.length a + String.length b.
Proof. induction a; simpl; congruence. Qed.

Lemma slice_to_app (p q : string) : slice_to (String.length p) (p ++ q) = p.
Proof. induction p as [|c p IH]; simpl; [by destruct q | by rewrite IH]. Qed.

Lemma slice_from_app (p q : string) : slice_from (String.length p) (p ++ q) = q.
Proof. induction p as [|c p IH]; simpl; [by destruct q | by rewrite IH]. Qed.

Lemma slice_to_from (n : nat) (s : string) : slice_to n s ++ slice_from n s = s.
Proof.
  revert s; induction n as [|n IH]; intros [|c s]; simpl; try done.
  by rewrite IH.
Qed.

Lemma slice_to_length (n : nat) (s : string) :
  n <= String.length s -> String.length (slice_to n s) = n.
Proof.
  revert s; induction n as [|n IH]; intros [|c s]; simpl; try lia.
  intros; rewrite IH; lia.
Qed.

Lemma slice_from_add (n m : nat) (s : string) :
  slice_from (n + m) s = slice_from m (slice_from n s).
Proof.
  revert s; induction n as [|n IH]; intros s; simpl; [done|].
  destruct s; [by destruct m | apply IH].
Qed.

Lemma slice_from_length (n : nat) (s : string) :
  String.length (slice_from n s) = String.length s - n.
Proof.
  revert s; induction n as [|n IH]; intros [|c s]; simpl; try lia.
  apply IH.
Qed.

(** ** HasPrefix and Index *)

Lemma HasPrefix_app (sep q : string) : HasPrefix (sep ++ q) sep = true.
Proof. induction sep as [|a sep IH]; simpl; [done|]. by destruct (ascii_dec a a). Qed.

Lemma HasPrefix_split (s sep : string) :
  HasPrefix s sep = true -> s = sep ++ slice_from (String.length sep) s.
Proof.
  revert s; induction sep as [|a sep IH]; intros s; simpl.
  - by destruct s.
  - destruct s as [|c s]; [done|]. destruct (ascii_dec a c); [|done].
    intros H. subst. f_equal. by apply IH.
Qed.

(** Only the first [length sep] bytes matter. *)
Lemma HasPrefix_long (u q q' sep : string) :
  String.length sep <= String.length u ->
  HasPrefix (u ++ q) sep = HasPrefix (u ++ q') sep.
Proof.
  revert u; induction sep as [|a sep IH]; intros u Hlen; simpl.
  - by destruct (u ++ q), (u ++ q').
  - destruct u as [|c u]; simpl in *; [lia|].
    destruct (ascii_dec a c); [|done]. apply IH. lia.
Qed.

Lemma Index_bound (s sep : string) (n : nat) :
  Index s sep = Some n -> n + String.length sep <= String.length s.
Proof.
  revert n; induction s as [|c s IH]; intros n; simpl.
  - destruct (HasPrefix "" sep) eqn:Hp; [|done].
    intros [= <-]. destruct sep; simpl in *; [lia|done].
  - destruct (HasPrefix (String c s) sep) eqn:Hp.
    + intros [= <-]. apply HasPrefix_split in Hp.
      apply (f_equal String.length) in Hp. rewrite length_append in Hp. simpl in *. lia.
    + destruct (Index s sep) as [m|] eqn:Hi; [|done].
      intros [= <-]. specialize (IH m eq_refl). lia.
Qed.

Lemma Index_split (s sep : string) (n : nat) :
  Index s sep = Some n ->
  s = slice_to n s ++ sep ++ slice_from (n + String.length sep) s.
Proof.
  revert n; induction s as [|c s IH]; intros n.
  - simpl. destruct (HasPrefix "" sep) eqn:Hp; [|done].
    intros [= <-]. destruct sep; done.
  - cbn [Index]. destruct (HasPrefix (String c s) sep) eqn:Hp.
    + intros [= <-]. by apply HasPrefix_split in Hp.
    + destruct (Index s sep) as [m|] eqn:Hi; [|done].
      intros [= <-]. simpl. f_equal. by apply IH.
Qed.

Lemma Index_here (s sep : string) : HasPrefix s sep = true -> Index s sep = Some 0.
Proof. intros H. destruct s; simpl; by rewrite H. Qed.

Lemma Index_next (c : ascii) (s sep : string) :
  HasPrefix (String c s) sep = false -> Index (String c s) sep = S <$> Index s sep.
Proof. intros H. cbn [Index]. by rewrite H. Qed.

Lemma Index_first_at (s sep : string) (n : nat) :
  Index s sep = Some n -> first_at sep (slice_to n s).
Proof.
  revert n; induction s as [|c s IH]; intros n.
  - simpl. destruct (HasPrefix "" sep) eqn:Hp; [|done].
    intros [= <-] q. simpl. apply Index_here, HasPrefix_app.
  - cbn [Index]. destruct (HasPrefix (String c s) sep) eqn:Hp.
    + intros [= <-] q. simpl. apply Index_here, HasPrefix_app.
    + destruct (Index s sep) as [m|] eqn:Hi; [|done].
      intros [= <-] q. pose proof (IH m eq_refl q) as IHq.
      pose proof (Index_split _ _ _ Hi) as Hs.
      pose proof (Index_bound _ _ _ Hi) as Hb.
      cbn [slice_to append String.length].
      rewrite Index_next, IHq; [done|].
      rewrite <- Hp. rewrite Hs at 2.
      rewrite <- !append_assoc.
      apply (HasPrefix_long (String c (slice_to m s ++ sep))).
      simpl. rewrite length_append. lia.
Qed.

(** ** fasttemplate: parsing *)

Lemma Count_zero (s sep : string) : Count s sep = 0 <-> Index s sep = None.
Proof. unfold Count. simpl. destruct (Index s sep); split; done. Qed.

Lemma wf_tokens_length (texts tags : list string) :
  wf_tokens texts tags -> length texts = S (length tags).
Proof. induction 1; simpl; congruence. Qed.

Lemma join_length (texts tags : list string) :
  wf_tokens texts tags -> length tags <= String.length (join texts tags).
Proof.
  induction 1; simpl; [lia|].
  rewrite !length_append. simpl. rewrite !length_append. simpl. lia.
Qed.

Lemma Reset_loop_wf (fuel : nat) (s : string) (atx atg tx tg : list string) :
  fasttemplate.Reset_loop fuel s "{{" "}}" atx atg = Returned (inl (tx, tg)) ->
  exists tx' tg', tx = (atx ++ tx')%list /\ tg = (atg ++ tg')%list
    /\ wf_tokens tx' tg' /\ s = join tx' tg'.
Proof.
  revert s atx atg; induction fuel as [|fuel IH]; intros s atx atg; [done|].
  cbn [fasttemplate.Reset_loop].
  destruct (Index s "{{") as [n|] eqn:Hn.
  - destruct (Index (slice_from (n + String.length "{{") s) "}}") as [n'|] eqn:Hn'; [|done].
    intros H. apply IH in H as (tx' & tg' & -> & -> & Hwf & Hs).
    exists (slice_to n s :: tx'), (slice_to n' (slice_from (n + String.length "{{") s) :: tg').
    rewrite <- !(assoc_L (++)%list). split_and!; try done.
    + constructor; eauto using Index_first_at.
    + cbn [join]. rewrite <- Hs.
      rewrite <- (Index_split _ _ _ Hn'). by apply Index_split.
  - intros [= <- <-]. exists [s], []. rewrite (right_id_L [] (++)%list).
    split_and!; try done. by constructor.
Qed.

Lemma Reset_loop_fuel (fuel : nat) (s : string) (atx atg : list string) :
  String.length s < fuel ->
  fasttemplate.Reset_loop fuel s "{{" "}}" atx atg <> OutOfFuel.
Proof.
  revert s atx atg; induction fuel as [|fuel IH]; intros s atx atg Hlen; [lia|].
  cbn [fasttemplate.Reset_loop].
  destruct (Index s "{{") as [n|] eqn:Hn; [|done].
  destruct (Index (slice_from (n + String.length "{{") s) "}}") as [n'|] eqn:Hn'; [|done].
  apply IH. apply Index_bound in Hn, Hn'.
  rewrite !slice_from_length in *. simpl in *. lia.
Qed.

Lemma Reset_loop_join (fuel : nat) (texts tags atx atg : list string) :
  wf_tokens texts tags -> length tags < fuel ->
  fasttemplate.Reset_loop fuel (join texts tags) "{{" "}}" atx atg
  = Returned (inl ((atx ++ texts)%list, (atg ++ tags)%list)).
Proof.
  intros Hwf; revert fuel atx atg; induction Hwf as [text Hn|text tag texts tags Ht Hg Hwf IH];
    intros fuel atx atg Hlen.
  - destruct fuel; [simpl in *; lia|]. simpl. rewrite Hn.
    by rewrite (right_id_L [] (++)%list).
  - destruct fuel; [simpl in *; lia|]. cbn [join fasttemplate.Reset_loop].
    rewrite (Ht _). rewrite slice_to_app.
    replace (String.length text + String.length "{{") with (String.length (text ++ "{{"))
      by apply length_append.
    rewrite <- (append_assoc text "{{"), slice_from_app.
    rewrite (Hg _), slice_to_app.
    replace (String.length tag + String.length "}}") with (String.length (tag ++ "}}"))
      by apply length_append.
    rewrite <- (append_assoc tag "}}"), slice_from_app.
    rewrite IH; [|simpl in *; lia].
    by rewrite <- !(assoc_L (++)%list).
Qed.

Lemma New_tokens (s : string) (t : fasttemplate.Template) :
  fasttemplate.New s "{{" "}}" = Returned t ->
  fasttemplate.template t = s
  /\ wf_tokens (tokens_of t).1 (tokens_of t).2
  /\ join (tokens_of t).1 (tokens_of t).2 = s.
Proof.
  unfold fasttemplate.New, fasttemplate.Reset.
  destruct (decide (String.length "{{" = 0)) as [|_]; [done|].
  destruct (decide (String.length "}}" = 0)) as [|_]; [done|].
  destruct (decide (Count s "{{" = 0)) as [Hc|Hc].
  - intros [= <-]. apply Count_zero in Hc. unfold tokens_of; simpl.
    split_and!; try done. by constructor.
  - destruct (fasttemplate.Reset_loop _ _ _ _ _ _) as [[[tx tg]|rest]|p|] eqn:Hl;
      simpl; try done.
    intros [= <-]. apply Reset_loop_wf in Hl as (tx' & tg' & -> & -> & Hwf & Hs).
    simpl in *. unfold tokens_of; simpl. subst s.
    destruct Hwf; simpl; split_and!; try done; by constructor.
Qed.

(** [New] terminates: it returns a template or panics. *)
Lemma New_terminates (s : string) : fasttemplate.New s "{{" "}}" <> OutOfFuel.
Proof.
  unfold fasttemplate.New, fasttemplate.Reset.
  destruct (decide (String.length "{{" = 0)) as [|_]; [done|].
  destruct (decide (String.length "}}" = 0)) as [|_]; [done|].
  destruct (decide (Count s "{{" = 0)) as [Hc|Hc]; [done|].
  pose proof (Reset_loop_fuel (S (String.length s)) s [] [] ltac:(lia)) as Hf.
  destruct (fasttemplate.Reset_loop _ _ _ _ _ _) as [[[tx tg]|rest]|p|]; simpl; done.
Qed.

(** A well-formed token sequence is what [New] reads back from its text. *)
Lemma New_join (texts tags : list string) :
  wf_tokens texts tags ->
  exists t, fasttemplate.New (join texts tags) "{{" "}}" = Returned t
    /\ tokens_of t = (texts, tags).
Proof.
  intros Hwf. unfold fasttemplate.New, fasttemplate.Reset.
  destruct (decide (String.length "{{" = 0)) as [|_]; [done|].
  destruct (decide (String.length "}}" = 0)) as [|_]; [done|].
  destruct (decide (Count (join texts tags) "{{" = 0)) as [Hc|Hc].
  - apply Count_zero in Hc. destruct Hwf as [text Hn|text tag texts tags Ht Hg Hwf].
    + eexists; split; [done|]. done.
    + cbn [join] in Hc. by rewrite (Ht _) in Hc.
  - rewrite (Reset_loop_join _ texts tags [] [] Hwf).
    + simpl. eexists; split; [done|]. unfold tokens_of; simpl. by destruct Hwf.
    + pose proof (join_length _ _ Hwf). lia.
Qed.

(** ** fasttemplate: execution *)

Lemma ExecuteFunc_loop_run {St Err : Type} (t : fasttemplate.Template)
    (f : fasttemplate.TagFunc St Err) (k i : nat) (w : string) (st : St) :
  i + k = length (fasttemplate.tags t) ->
  length (fasttemplate.texts t) = S (length (fasttemplate.tags t)) ->
  (r ← fasttemplate.ExecuteFunc_loop t f k i w st;
   match r with
   | ((w, st), Some e) => Returned ((w, st), Some e)
   | ((w, st), None) =>
       match fasttemplate.texts t !! (i + k) with
       | Some text => Returned ((w ++ text, st), None)
       | None => Panicked (panic_string "index out of range")
       end
   end)
  = Returned (run_tokens f (drop i (fasttemplate.texts t)) (drop i (fasttemplate.tags t)) w st).
Proof.
  intros Hik Hlen. revert i w st Hik; induction k as [|k IH]; intros i w st Hik.
  - rewrite Nat.add_0_r in *. simpl.
    destruct (lookup_lt_is_Some_2 (fasttemplate.texts t) i ltac:(lia)) as [text Htext].
    rewrite Htext. rewrite (drop_S _ _ _ Htext).
    rewrite (drop_ge (fasttemplate.tags t)) by lia.
    rewrite (drop_ge (fasttemplate.texts t) (S i)) by lia. done.
  - destruct (lookup_lt_is_Some_2 (fasttemplate.texts t) i ltac:(lia)) as [text Htext].
    destruct (lookup_lt_is_Some_2 (fasttemplate.tags t) i ltac:(lia)) as [tag Htag].
    rewrite (drop_S _ _ _ Htext), (drop_S _ _ _ Htag).
    cbn [fasttemplate.ExecuteFunc_loop run_tokens]. rewrite Htext, Htag.
    destruct (f (w ++ text) tag st) as [[w' st'] [n [e|]]]; [done|].
    replace (i + S k) with (S i + k) by lia. apply IH. lia.
Qed.

Lemma ExecuteFunc_run {St Err : Type} (s : string) (t : fasttemplate.Template)
    (f : fasttemplate.TagFunc St Err) (w : string) (st : St) :
  fasttemplate.New s "{{" "}}" = Returned t ->
  fasttemplate.ExecuteFunc t f w st
  = Returned (run_tokens f (tokens_of t).1 (tokens_of t).2 w st).
Proof.
  intros Hnew. apply New_tokens in Hnew as (_ & Hwf & _).
  unfold fasttemplate.ExecuteFunc, tokens_of in *.
  destruct (fasttemplate.texts t) as [|text texts] eqn:Htx; [done|].
  simpl in Hwf. apply wf_tokens_length in Hwf. simpl in Hwf.
  pose proof (ExecuteFunc_loop_run t f (length texts) 0 w st) as Hrun.
  rewrite Htx in Hrun. simpl in *. apply Hrun; lia.
Qed.

(** ** The escaping substitutor *)

Section SubstitutorFacts.
Variable isPrintTables : Z -> bool.

(** Dropping the first and last byte of the quoted form leaves the escaped value. *)
Lemma Quote_inner (v : string) :
  slice 1 (String.length (strconv.Quote isPrintTables v) - 1) (strconv.Quote isPrintTables v)
  = escape isPrintTables v.
Proof.
  unfold strconv.Quote, slice, escape. simpl.
  rewrite length_append. simpl.
  replace (String.length _ + 1 - 0 - 1) with
    (String.length (strconv.appendQuotedWith_loop isPrintTables strconv.dquote 0 v)) by lia.
  apply slice_to_app.
Qed.

(** One call of the tag function: what it appends, and what it leaves in
    [unresolvedErr]; it never returns an error itself. *)
Lemma replaceWithFastTemplate_func_spec (m : gmap string string) (allow : bool)
    (w tag : string) (st : option error) :
  exists n,
    replaceWithFastTemplate_func isPrintTables m allow w tag st
    = ((w ++ piece isPrintTables m allow tag,
        if unresolved m tag && negb allow then Some (unresolved_error tag) else st),
       (n, None)).
Proof.
  unfold replaceWithFastTemplate_func, piece, unresolved.
  destruct (m !! strings.TrimSpace tag) as [v|] eqn:Hv.
  - rewrite bool_decide_true by eauto. cbn [negb default]. rewrite orb_false_r.
    destruct (String.length (strings.TrimSpace tag) =? 0)%nat; cbn [andb negb].
    + destruct allow; cbn [andb negb]; eexists; [done|]. by rewrite append_nil_r.
    + rewrite Quote_inner. by eexists.
  - rewrite bool_decide_false by (by intros [? ?]). cbn [negb default].
    rewrite orb_true_r. cbn [andb].
    destruct allow; cbn [negb]; eexists; [done|]. by rewrite append_nil_r.
Qed.

Lemma run_tokens_func (m : gmap string string) (allow : bool)
    (texts tags : list string) (w : string) (st : option error) :
  length texts = S (length tags) ->
  run_tokens (replaceWithFastTemplate_func isPrintTables m allow) texts tags w st
  = ((w ++ render isPrintTables m allow texts tags,
      if allow then st
      else match last_unresolved m tags with
           | Some tag => Some (unresolved_error tag)
           | None => st
           end),
     None).
Proof.
  revert tags w st; induction texts as [|text texts IH]; intros tags w st Hlen; [done|].
  destruct tags as [|tag tags]; [by destruct allow|].
  cbn [run_tokens render last_unresolved].
  destruct (replaceWithFastTemplate_func_spec m allow (w ++ text) tag st) as [n ->].
  rewrite IH by (simpl in Hlen; lia). rewrite !append_assoc. f_equal. f_equal.
  destruct allow; [by rewrite andb_false_r|]. rewrite andb_true_r.
  destruct (last_unresolved m tags); [done|]. by destruct (unresolved m tag).
Qed.

(** The substitutor on a parsed template, in closed form. *)
Lemma replaceWithFastTemplate_exec_spec (s : string) (t : fasttemplate.Template)
    (m : gmap string string) (allow : bool) :
  fasttemplate.New s "{{" "}}" = Returned t ->
  replaceWithFastTemplate_exec isPrintTables t m allow
  = Returned (render isPrintTables m allow (tokens_of t).1 (tokens_of t).2,
              if allow then None
              else unresolved_error <$> last_unresolved m (tokens_of t).2).
Proof.
  intros Hnew. unfold replaceWithFastTemplate_exec, fasttemplate.ExecuteFuncString,
    fasttemplate.ExecuteFuncStringWithErr.
  rewrite (ExecuteFunc_run s) by done.
  apply New_tokens in Hnew as (_ & Hwf & _).
  rewrite run_tokens_func by (by apply wf_tokens_length). simpl.
  destruct allow; [done|]. by destruct (last_unresolved _ _).
Qed.

End SubstitutorFacts.

(** ** Unresolved tags *)

Lemma unresolved_iff (m : gmap string string) (tag : string) :
  unresolved m tag = true
  <-> String.length (strings.TrimSpace tag) = 0 \/ m !! strings.TrimSpace tag = None.
Proof.
  unfold unresolved. rewrite orb_true_iff, Nat.eqb_eq, negb_true_iff, bool_decide_eq_false.
  rewrite <- eq_None_not_Some. done.
Qed.

Lemma New_tags (s : string) (t : fasttemplate.Template) :
  fasttemplate.New s "{{" "}}" = Returned t -> (tokens_of t).2 = fasttemplate.tags t.
Proof.
  unfold fasttemplate.New, fasttemplate.Reset.
  destruct (decide (String.length "{{" = 0)) as [|_]; [done|].
  destruct (decide (String.length "}}" = 0)) as [|_]; [done|].
  destruct (decide (Count s "{{" = 0)) as [Hc|Hc]; [by intros [= <-]|].
  destruct (fasttemplate.Reset_loop _ _ _ _ _ _) as [[[tx tg]|rest]|p|] eqn:Hl;
    simpl; try done.
  intros [= <-]. apply Reset_loop_wf in Hl as (tx' & tg' & -> & -> & Hwf & Hs).
  unfold tokens_of; simpl. by destruct Hwf.
Qed.

Lemma last_unresolved_None (m : gmap string string) (tags : list string) :
  last_unresolved m tags = None <-> Forall (fun g => unresolved m g = false) tags.
Proof.
  induction tags as [|g tags IH]; simpl; [done|].
  rewrite Forall_cons. destruct (last_unresolved m tags).
  - split; [done|]. intros [_ H]. by apply IH in H.
  - destruct (unresolved m g); split; try done; [by intros [? _]|].
    intros _. split; [done|]. by apply IH.
Qed.

Lemma last_unresolved_app (m : gmap string string) (pre post : list string) :
  last_unresolved m (pre ++ post)
  = match last_unresolved m post with
    | Some t => Some t
    | None => last_unresolved m pre
    end.
Proof.
  induction pre as [|g pre IH]; simpl; [by destruct (last_unresolved m post)|].
  rewrite IH. by destruct (last_unresolved m post).
Qed.

(** [last_unresolved] finds the unresolved tag after which every tag resolves. *)
Lemma last_unresolved_Some (m : gmap string string) (tags : list string) (tag : string) :
  last_unresolved m tags = Some tag
  <-> exists pre post, tags = (pre ++ tag :: post)%list
        /\ unresolved m tag = true
        /\ Forall (fun g => unresolved m g = false) post.
Proof.
  split.
  - revert tag; induction tags as [|g tags IH]; intros tag; simpl; [done|].
    destruct (last_unresolved m tags) as [u|] eqn:Hlast.
    + intros [= ->]. destruct (IH tag eq_refl) as (pre & post & -> & Hu & Hpost).
      by exists (g :: pre), post.
    + destruct (unresolved m g) eqn:Hg; [|done]. intros [= ->].
      exists [], tags. split_and!; try done. by apply last_unresolved_None.
  - intros (pre & post & -> & Hu & Hpost). rewrite last_unresolved_app. simpl.
    apply last_unresolved_None in Hpost. by rewrite Hpost, Hu.
Qed.

(** ** The substitutor with [allowUnresolved = false] *)

Lemma replaceWithFastTemplate_strict (tbl : Z -> bool) (s : string)
    (t : fasttemplate.Template) (m : gmap string string) :
  fasttemplate.New s "{{" "}}" = Returned t ->
  replaceWithFastTemplate tbl t m false
  = Returned (match last_unresolved m (fasttemplate.tags t) with
              | Some tag => ("", Some (unresolved_error tag))
              | None => (render tbl m false (tokens_of t).1 (fasttemplate.tags t), None)
              end).
Proof.
  intros Hnew. unfold replaceWithFastTemplate.
  rewrite (replaceWithFastTemplate_exec_spec tbl s) by done.
  rewrite (New_tags s) by done. simpl.
  by destruct (last_unresolved m (fasttemplate.tags t)).
Qed.

(** C8: with allowUnresolved = false, as soon as one tag of the template
    has an empty trimmed content or a trimmed key that the mapping lacks,
    the substitutor returns the error "failed to resolve {{tag}}" for an
    unresolved tag of the template, together with the empty string. *)
Theorem C8_unresolved_fails_with_empty_output (tbl : Z -> bool) (s : string)
    (t : fasttemplate.Template) (m : gmap string string) :
  fasttemplate.New s "{{" "}}" = Returned t ->
  (exists tag, tag ∈ fasttemplate.tags t
     /\ (String.length (strings.TrimSpace tag) = 0 \/ m !! strings.TrimSpace tag = None)) ->
  exists tag, tag ∈ fasttemplate.tags t
    /\ (String.length (strings.TrimSpace tag) = 0 \/ m !! strings.TrimSpace tag = None)
    /\ replaceWithFastTemplate tbl t m false
       = Returned ("", Some (fmt_Errorf ("failed to resolve {{" ++ tag ++ "}}"))).
Proof.
  intros Hnew (tag & Hin & Hun). apply unresolved_iff in Hun.
  rewrite (replaceWithFastTemplate_strict tbl s) by done.
  destruct (last_unresolved m (fasttemplate.tags t)) as [u|] eqn:Hlast.
  - apply last_unresolved_Some in Hlast as (pre & post & Htags & Hu & _).
    exists u. split_and!; [|by apply unresolved_iff|done].
    rewrite Htags. set_solver.
  - apply last_unresolved_None in Hlast. rewrite Forall_forall in Hlast.
    specialize (Hlast tag Hin). congruence.
Qed.

Lemma C8_witness :
  exists tag, tag ∈ ["x"; " "]
    /\ (String.length (strings.TrimSpace tag) = 0 \/ (∅ : gmap string string) !! strings.TrimSpace tag = None)
    /\ replaceWithFastTemplate no_wide_print
         (fasttemplate.mkTemplate "a{{x}}b{{ }}" "{{" "}}" ["a"; "b"; ""] ["x"; " "]) ∅ false
       = Returned ("", Some (fmt_Errorf ("failed to resolve {{" ++ tag ++ "}}"))).
Proof.
  apply (C8_unresolved_fails_with_empty_output no_wide_print "a{{x}}b{{ }}"
           (fasttemplate.mkTemplate "a{{x}}b{{ }}" "{{" "}}" ["a"; "b"; ""] ["x"; " "]) ∅).
  - reflexivity.
  - exists "x". split; [apply list_elem_of_here|]. right. reflexivity.
Defined.

(** C10: with allowUnresolved = false the scan does not stop at an
    unresolved tag: the text built by ExecuteFuncString covers every text
    and every tag of the template (a resolved tag gives its escaped value,
    an unresolved one nothing), and the error kept is the one of the last
    unresolved tag in scan order, which is the error returned. *)
Theorem C10_scans_all_and_reports_last (tbl : Z -> bool) (s : string)
    (t : fasttemplate.Template) (m : gmap string string) :
  fasttemplate.New s "{{" "}}" = Returned t ->
  replaceWithFastTemplate_exec tbl t m false
    = Returned (render tbl m false (tokens_of t).1 (fasttemplate.tags t),
                unresolved_error <$> last_unresolved m (fasttemplate.tags t))
  /\ (forall tag, unresolved m tag = false ->
        piece tbl m false tag = escape tbl (default "" (m !! strings.TrimSpace tag)))
  /\ (forall tag, unresolved m tag = true -> piece tbl m false tag = "")
  /\ (forall pre tag post,
        fasttemplate.tags t = (pre ++ tag :: post)%list ->
        unresolved m tag = true ->
        Forall (fun g => unresolved m g = false) post ->
        replaceWithFastTemplate tbl t m false
        = Returned ("", Some (fmt_Errorf ("failed to resolve {{" ++ tag ++ "}}")))).
Proof.
  intros Hnew. split_and!.
  - rewrite (replaceWithFastTemplate_exec_spec tbl s) by done.
    by rewrite (New_tags s) by done.
  - intros tag Hu. unfold piece. by rewrite Hu.
  - intros tag Hu. unfold piece. by rewrite Hu.
  - intros pre tag post Htags Hu Hpost.
    rewrite (replaceWithFastTemplate_strict tbl s) by done.
    assert (last_unresolved m (fasttemplate.tags t) = Some tag) as ->; [|done].
    apply last_unresolved_Some. eauto.
Qed.

Lemma C10_witness :
  replaceWithFastTemplate_exec no_wide_print
    (fasttemplate.mkTemplate "{{a}}-{{x}}-{{b}}-{{ y }}" "{{" "}}"
       [""; "-"; "-"; "-"; ""] ["a"; "x"; "b"; " y "])
    (<["x" := "1"]> (<["y" := "2"]> ∅)) false
  = Returned ("-1--2", Some (fmt_Errorf "failed to resolve {{b}}")).
Proof.
  exact (proj1 (C10_scans_all_and_reports_last no_wide_print "{{a}}-{{x}}-{{b}}-{{ y }}"
    (fasttemplate.mkTemplate "{{a}}-{{x}}-{{b}}-{{ y }}" "{{" "}}"
       [""; "-"; "-"; "-"; ""] ["a"; "x"; "b"; " y "])
    (<["x" := "1"]> (<["y" := "2"]> ∅)) eq_refl)).
Defined.

(** ** Bytes *)

Lemma byte_val_range (c : ascii) : (0 <= byte_val c < 256)%Z.
Proof. unfold byte_val. pose proof (N_ascii_bounded c). lia. Qed.

Lemma byte_val_byte_of (z : Z) : byte_val (byte_of z) = (z mod 256)%Z.
Proof.
  unfold byte_val, byte_of. pose proof (Z.mod_pos_bound z 256 ltac:(lia)).
  rewrite N_ascii_embedding by lia. lia.
Qed.

Lemma byte_of_byte_val (c : ascii) : byte_of (byte_val c) = c.
Proof.
  unfold byte_of. pose proof (byte_val_range c).
  rewrite Z.mod_small by lia. unfold byte_val. rewrite N2Z.id. apply ascii_N_embedding.
Qed.

Lemma byte_val_inj (c d : ascii) : byte_val c = byte_val d -> c = d.
Proof. intros H. by rewrite <- (byte_of_byte_val c), H, byte_of_byte_val. Qed.

Lemma lor_ge_l (a b : Z) : (0 <= b -> a <= Z.lor a b)%Z.
Proof.
  intros Hb. pose proof (Z.sub_lor_l_same_l b a) as H.
  assert (0 <= Z.land b (Z.lnot a))%Z by (apply Z.land_nonneg; auto). lia.
Qed.

Lemma lor_ge_r (a b : Z) : (0 <= a -> b <= Z.lor a b)%Z.
Proof. intros. rewrite Z.lor_comm. by apply lor_ge_l. Qed.

(** A byte with its top bit set is not an ASCII character. *)
Lemma byte_of_lor_high (hi y : Z) (c : ascii) :
  Z.testbit hi 7 = true -> (byte_val c < 128)%Z -> byte_of (Z.lor hi y) <> c.
Proof.
  intros Hhi Hc Heq. apply (f_equal byte_val) in Heq. rewrite byte_val_byte_of in Heq.
  assert (Z.testbit (Z.lor hi y mod 2 ^ 8) 7 = true) as Hbit.
  { rewrite Z.mod_pow2_bits_low by lia. by rewrite Z.lor_spec, Hhi. }
  change (2 ^ 8)%Z with 256%Z in Hbit. rewrite Heq in Hbit.
  pose proof (byte_val_range c).
  rewrite Z.bits_above_log2 in Hbit; [done|lia|].
  destruct (decide (byte_val c = 0%Z)) as [->|]; [simpl; lia|].
  apply Z.log2_lt_pow2; lia.
Qed.

(** ** UTF-8: runes read from and written as non-ASCII bytes *)

Ltac case_cmp :=
  match goal with
  | |- context [(?a <? ?b)%Z] => destruct (Z.ltb_spec a b)
  | |- context [(?a <=? ?b)%Z] => destruct (Z.leb_spec a b)
  | |- context [(?a =? ?b)%Z] => destruct (Z.eqb_spec a b)
  end.

Lemma land_low (x : Z) (n : Z) :
  (0 <= n -> Z.land x (Z.ones n) = x mod 2 ^ n)%Z.
Proof. apply Z.land_ones. Qed.

Lemma shifted_bits_ge (hi lo k bound : Z) :
  (0 <= lo -> 0 <= k -> bound <= hi * 2 ^ k -> bound <= Z.lor (Z.shiftl hi k) lo)%Z.
Proof.
  intros Hlo Hk Hb. rewrite Z.shiftl_mul_pow2 by done.
  pose proof (lor_ge_l (hi * 2 ^ k) lo Hlo). lia.
Qed.

Lemma lor_ge_trans_l (a b bound : Z) :
  (0 <= b -> bound <= a -> bound <= Z.lor a b)%Z.
Proof. intros Hb Ha. pose proof (lor_ge_l a b Hb). lia. Qed.

Lemma land_nonneg_r (x k : Z) : (0 <= k -> 0 <= Z.land x k)%Z.
Proof. intros. apply Z.land_nonneg. auto. Qed.

Lemma DecodeRune_non_ascii (c : ascii) (s : string) :
  (0x80 <= byte_val c)%Z -> (0x80 <= (utf8.DecodeRuneInString (String c s)).1)%Z.
Proof.
  intros Hc. unfold utf8.DecodeRuneInString. pose proof (byte_val_range c) as Hr.
  set (s0 := byte_val c) in *. clearbody s0.
  unfold utf8.first, utf8.RuneError, utf8.continuation.
  repeat (case_cmp; try lia; try (cbn [fst]; lia));
  match goal with
  | |- context [utf8.acceptRanges ?i] =>
      let v := eval vm_compute in (utf8.acceptRanges i) in
      change (utf8.acceptRanges i) with v
  end;
  repeat match goal with
  | |- context [Z.to_nat (Z.land ?a ?b)] =>
      let v := eval vm_compute in (Z.to_nat (Z.land a b)) in
      change (Z.to_nat (Z.land a b)) with v
  end;
  cbv beta iota zeta;
  change (2 <=? 2)%nat with true; change (3 <=? 2)%nat with false;
  change (3 <=? 3)%nat with true; change (4 <=? 2)%nat with false;
  change (4 <=? 3)%nat with false; cbv iota.
  all: destruct (_ <? _)%nat; [simpl; lia|].
  all: destruct s as [|c1 s]; [simpl; lia|].
  all: pose proof (byte_val_range c1).
  all: repeat (case_cmp; cbn [orb negb andb]; try (simpl; lia)).
  all: try (cbn [fst]; apply shifted_bits_ge; [by apply land_nonneg_r|lia|];
            change 31%Z with (Z.ones 5); rewrite land_low by lia;
            change (2 ^ 5)%Z with 32%Z; change (2 ^ 6)%Z with 64%Z;
            Z.div_mod_to_equations; lia).
  all: destruct s as [|c2 s]; [simpl; lia|].
  all: pose proof (byte_val_range c2).
  all: repeat (case_cmp; cbn [orb negb andb]; try (simpl; lia)).
  all: try (cbn [fst]; apply lor_ge_trans_l; [by apply land_nonneg_r|];
            first
              [ apply shifted_bits_ge; [apply Z.shiftl_nonneg; by apply land_nonneg_r|lia|];
                change 15%Z with (Z.ones 4); rewrite land_low by lia;
                change (2 ^ 4)%Z with 16%Z; change (2 ^ 12)%Z with 4096%Z;
                Z.div_mod_to_equations; lia
              | rewrite Z.lor_comm; apply shifted_bits_ge;
                [apply Z.shiftl_nonneg; by apply land_nonneg_r|lia|];
                change 63%Z with (Z.ones 6); rewrite land_low by lia;
                change (2 ^ 6)%Z with 64%Z;
                Z.div_mod_to_equations; lia ]).
  all: destruct s as [|c3 s]; [simpl; lia|].
  all: pose proof (byte_val_range c3).
  all: repeat (case_cmp; cbn [orb negb andb]; try (simpl; lia)).
  all: cbn [fst]; apply lor_ge_trans_l; [by apply land_nonneg_r|];
       apply lor_ge_trans_l; [apply Z.shiftl_nonneg; by apply land_nonneg_r|];
       first
         [ apply shifted_bits_ge; [apply Z.shiftl_nonneg; by apply land_nonneg_r|lia|];
           change 7%Z with (Z.ones 3); rewrite land_low by lia;
           change (2 ^ 3)%Z with 8%Z; change (2 ^ 18)%Z with 262144%Z;
           Z.div_mod_to_equations; lia
         | rewrite Z.lor_comm; apply shifted_bits_ge;
           [apply Z.shiftl_nonneg; by apply land_nonneg_r|lia|];
           change 63%Z with (Z.ones 6); rewrite land_low by lia;
           change (2 ^ 6)%Z with 64%Z; change (2 ^ 12)%Z with 4096%Z;
           Z.div_mod_to_equations; lia ].
Qed.

(** ** Strings without a given character *)

Lemma Index_char_cons (c d : ascii) (s : string) :
  Index (String d s) (String c "") = None
  <-> d <> c /\ Index s (String c "") = None.
Proof.
  cbn [Index HasPrefix]. destruct (ascii_dec c d) as [->|Hne].
  - split; [done|]. by intros [? _].
  - destruct (Index s (String c "")) as [n|]; simpl.
    + split; [done|]. by intros [_ ?].
    + split; [|done]. intros _. split; [congruence|done].
Qed.

Lemma Index_char_app (c : ascii) (a b : string) :
  Index a (String c "") = None -> Index b (String c "") = None ->
  Index (a ++ b) (String c "") = None.
Proof.
  intros Ha Hb. induction a as [|d a IH]; [done|].
  apply Index_char_cons in Ha as [Hd Ha]. cbn [append].
  apply Index_char_cons. auto.
Qed.

Lemma lowerhex_not_lbrace (x : Z) : strconv.lowerhex x <> "{"%char.
Proof.
  unfold strconv.lowerhex. generalize (Z.to_nat x) as n. intros n.
  do 17 (destruct n as [|n]; [simpl; discriminate|]). simpl. discriminate.
Qed.

Lemma hex_digits_no_lbrace (r : Z) (shifts : list Z) :
  Index (strconv.hex_digits r shifts) "{" = None.
Proof.
  unfold strconv.hex_digits. induction shifts as [|k shifts IH]; [done|].
  cbn [map string_of_list_ascii]. apply Index_char_cons. split; [|done].
  apply lowerhex_not_lbrace.
Qed.

Lemma EncodeRune_no_lbrace (r : Z) :
  r <> 0x7B%Z -> Index (utf8.EncodeRune r) "{" = None.
Proof.
  intros Hr. unfold utf8.EncodeRune.
  assert (forall y, byte_of (Z.lor 0x80 y) <> "{"%char) as H80
    by (intros; by apply byte_of_lor_high).
  assert (forall y, byte_of (Z.lor 0xC0 y) <> "{"%char) as HC0
    by (intros; by apply byte_of_lor_high).
  assert (forall y, byte_of (Z.lor 0xE0 y) <> "{"%char) as HE0
    by (intros; by apply byte_of_lor_high).
  assert (forall y, byte_of (Z.lor 0xF0 y) <> "{"%char) as HF0
    by (intros; by apply byte_of_lor_high).
  repeat (case_cmp; cbn [andb]);
    repeat (apply Index_char_cons; split; [by auto|]); try done.
  all: apply Index_char_cons; split; [|done].
  all: intros Heq; apply Hr; apply (f_equal byte_val) in Heq.
  all: rewrite byte_val_byte_of in Heq; rewrite Z.mod_small in Heq by lia; exact Heq.
Qed.

(** ** Escaped values *)

Lemma appendEscapedRune_no_lbrace (tbl : Z -> bool) (r : Z) :
  r <> 0x7B%Z -> Index (strconv.appendEscapedRune tbl r strconv.dquote) "{" = None.
Proof.
  intros Hr. unfold strconv.appendEscapedRune.
  destruct ((r =? byte_val strconv.dquote)%Z || (r =? 92)%Z) eqn:Hq.
  - apply orb_true_iff in Hq as [->%Z.eqb_eq| ->%Z.eqb_eq]; done.
  - destruct (strconv.IsPrint tbl r); [by apply EncodeRune_no_lbrace|].
    repeat match goal with
           | |- context [if (r =? ?k)%Z then String _ _ else _] =>
               destruct (r =? k)%Z; [done|]
           end.
    destruct ((r <? 32)%Z || (r =? 127)%Z).
    + do 2 (apply Index_char_cons; split; [done|]). apply hex_digits_no_lbrace.
    + destruct (_ <? _)%Z;
        do 2 (apply Index_char_cons; split; [done|]); apply hex_digits_no_lbrace.
Qed.

Lemma appendQuotedWith_loop_no_lbrace (tbl : Z -> bool) (skip : nat) (v : string) :
  Index v "{" = None ->
  Index (strconv.appendQuotedWith_loop tbl strconv.dquote skip v) "{" = None.
Proof.
  revert skip; induction v as [|c v IH]; intros skip Hv; [done|].
  apply Index_char_cons in Hv as [Hc Hv]. cbn [strconv.appendQuotedWith_loop].
  destruct skip as [|k]; [|by apply IH].
  destruct (byte_val c <? utf8.RuneSelf)%Z eqn:Hascii.
  - cbn [Nat.eqb]. apply Index_char_app; [|by apply IH].
    destruct (true && _); [do 2 (apply Index_char_cons; split; [done|]); apply hex_digits_no_lbrace|].
    apply appendEscapedRune_no_lbrace. intros Heq. apply Hc.
    apply byte_val_inj. by rewrite Heq.
  - apply Z.ltb_ge in Hascii. pose proof (DecodeRune_non_ascii c v Hascii) as Hdec.
    destruct (utf8.DecodeRuneInString (String c v)) as [r width]. simpl in Hdec.
    apply Index_char_app; [|by apply IH].
    destruct (_ && _); [do 2 (apply Index_char_cons; split; [done|]); apply hex_digits_no_lbrace|].
    apply appendEscapedRune_no_lbrace. unfold utf8.RuneSelf in *. lia.
Qed.

Lemma escape_no_lbrace (tbl : Z -> bool) (v : string) :
  Index v "{" = None -> Index (escape tbl v) "{" = None.
Proof. apply appendQuotedWith_loop_no_lbrace. Qed.

(** ** Texts that a start tag can follow *)

Lemma first_at_nil (sep : string) : first_at sep "".
Proof. intros q. cbn [append]. apply Index_here, HasPrefix_app. Qed.

Lemma first_at_cons (c : ascii) (p : string) :
  first_at "{{" (String c p)
  <-> HasPrefix (String c (p ++ "{{")) "{{" = false /\ first_at "{{" p.
Proof.
  assert (forall q, HasPrefix (String c (p ++ "{{" ++ q)) "{{"
                    = HasPrefix (String c (p ++ "{{")) "{{") as Hlong.
  { intros q. rewrite <- (append_nil_r (String c (p ++ "{{"))).
    rewrite <- (append_assoc p "{{" q).
    apply (HasPrefix_long (String c (p ++ "{{"))). simpl. rewrite length_append. simpl. lia. }
  unfold first_at. split.
  - intros H. assert (HasPrefix (String c (p ++ "{{")) "{{" = false) as Hp.
    { specialize (H ""). cbn [append] in H.
      destruct (HasPrefix _ _) eqn:E; [|done]. by rewrite (Index_here _ _ E) in H. }
    split; [done|]. intros q. specialize (H q).
    change (String c p ++ "{{" ++ q) with (String c (p ++ "{{" ++ q)) in H.
    rewrite Index_next in H by (by rewrite Hlong).
    destruct (Index (p ++ "{{" ++ q) "{{"); simplify_eq/=. done.
  - intros [Hp H] q.
    change (String c p ++ "{{" ++ q) with (String c (p ++ "{{" ++ q)).
    rewrite Index_next by (by rewrite Hlong).
    by rewrite H.
Qed.

(** The first two bytes decide [HasPrefix _ "{{"]. *)
Lemma HasPrefix_open_stable (c : ascii) (p x : string) :
  HasPrefix (String c (p ++ "{{")) "{{" = false ->
  HasPrefix (String c (p ++ x)) "{{" = false.
Proof.
  cbn [HasPrefix]. destruct (ascii_dec "{" c); [|done].
  destruct p as [|d p]; cbn [append]; [|done].
  by destruct (ascii_dec "{" "{").
Qed.

Lemma first_at_app (p t : string) :
  first_at "{{" p -> first_at "{{" t -> first_at "{{" (p ++ t).
Proof.
  intros Hp Ht. induction p as [|c p IH]; [done|].
  apply first_at_cons in Hp as [Hc Hp]. cbn [append]. apply first_at_cons. split; [|auto].
  rewrite append_assoc. by apply HasPrefix_open_stable.
Qed.

Lemma first_at_no_lbrace (r : string) : Index r "{" = None -> first_at "{{" r.
Proof.
  induction r as [|c r IH]; intros Hr; [apply first_at_nil|].
  apply Index_char_cons in Hr as [Hc Hr]. apply first_at_cons. split; [|auto].
  cbn [HasPrefix]. by destruct (ascii_dec "{" c).
Qed.

Lemma first_at_no_open (p q : string) :
  first_at "{{" p -> Index q "{{" = None -> Index (p ++ q) "{{" = None.
Proof.
  intros Hp Hq. induction p as [|c p IH]; [done|].
  apply first_at_cons in Hp as [Hc Hp]. cbn [append].
  rewrite Index_next by (by apply HasPrefix_open_stable). by rewrite IH.
Qed.

(** ** A second pass over the substituted text *)

Section SecondPass.
Variable isPrintTables : Z -> bool.
Variable m : gmap string string.
Hypothesis values_no_lbrace : forall k v, m !! k = Some v -> Index v "{" = None.

(** The substituted text is again a well-formed token sequence: its tags
    are the unresolved ones, and the resolved values have joined the texts. *)
Lemma render_tokens (texts tags : list string) :
  wf_tokens texts tags ->
  forall p, first_at "{{" p ->
  exists texts' tags',
    wf_tokens texts' tags'
    /\ p ++ render isPrintTables m true texts tags = join texts' tags'
    /\ Forall (fun g => unresolved m g = true) tags'.
Proof.
  induction 1 as [text Hn|text tag texts tags Ht Hg Hwf IH]; intros p Hp.
  - exists [p ++ text], []. split_and!; [|done|done].
    constructor. by apply first_at_no_open.
  - cbn [render]. unfold piece. destruct (unresolved m tag) eqn:Hu.
    + destruct (IH "" (first_at_nil _)) as (texts' & tags' & Hwf' & Hjoin & Hall).
      exists ((p ++ text) :: texts'), (tag :: tags'). split_and!.
      * constructor; [by apply first_at_app|done|done].
      * cbn [join]. rewrite <- Hjoin. cbn [append]. by rewrite !append_assoc.
      * by constructor.
    + assert (exists v, m !! strings.TrimSpace tag = Some v) as [v Hv].
      { unfold unresolved in Hu. apply orb_false_iff in Hu as [_ Hu].
        apply negb_false_iff, bool_decide_eq_true in Hu. by destruct Hu as [v ?]; exists v. }
      rewrite Hv. cbn [default].
      destruct (IH (p ++ text ++ escape isPrintTables v)) as (texts' & tags' & Hwf' & Hjoin & Hall).
      { apply first_at_app; [done|]. apply first_at_app; [done|].
        apply first_at_no_lbrace, escape_no_lbrace. eauto. }
      exists texts', tags'. split_and!; [done| |done].
      rewrite <- Hjoin. by rewrite !append_assoc.
Qed.

End SecondPass.

(** When every tag is unresolved, the substitutor writes the text back. *)
Lemma render_all_unresolved (tbl : Z -> bool) (m : gmap string string)
    (texts tags : list string) :
  Forall (fun g => unresolved m g = true) tags ->
  render tbl m true texts tags = join texts tags.
Proof.
  intros Hall. revert texts; induction Hall as [|tag tags Hu _ IH]; intros texts.
  - by destruct texts.
  - destruct texts as [|text texts]; [done|]. cbn [render join]. unfold piece.
    by rewrite Hu, IH, !append_assoc.
Qed.

(** ** The substitutor with [allowUnresolved = true] *)

Lemma replaceWithFastTemplate_lenient (tbl : Z -> bool) (s : string)
    (t : fasttemplate.Template) (m : gmap string string) :
  fasttemplate.New s "{{" "}}" = Returned t ->
  replaceWithFastTemplate tbl t m true
  = Returned (render tbl m true (tokens_of t).1 (fasttemplate.tags t), None).
Proof.
  intros Hnew. unfold replaceWithFastTemplate.
  rewrite (replaceWithFastTemplate_exec_spec tbl s) by done.
  by rewrite (New_tags s) by done.
Qed.

Lemma render_contains (tbl : Z -> bool) (m : gmap string string) (allow : bool)
    (texts tags : list string) (tag : string) :
  length texts = S (length tags) -> tag ∈ tags ->
  exists pre post, render tbl m allow texts tags = pre ++ piece tbl m allow tag ++ post.
Proof.
  revert texts; induction tags as [|g tags IH]; intros texts Hlen Hin.
  - by apply elem_of_nil in Hin.
  - destruct texts as [|text texts]; [done|]. cbn [render].
    apply elem_of_cons in Hin as [->|Hin].
    + by exists text, (render tbl m allow texts tags).
    + destruct (IH texts ltac:(simpl in *; lia) Hin) as (pre & post & ->).
      exists (text ++ piece tbl m allow g ++ pre), post. by rewrite !append_assoc.
Qed.

(** C5 (amended): with allowUnresolved = true the substitutor never fails;
    a tag whose trimmed content is empty or is no key of the mapping is
    written back as it stood, delimiters and untrimmed content included,
    so that it occurs literally in the output; and when no value of the
    mapping contains an opening brace, substituting the output once more
    with the same mapping gives the same text. *)
Theorem C5_unresolved_verbatim_second_pass (tbl : Z -> bool) (s : string)
    (t : fasttemplate.Template) (m : gmap string string) :
  fasttemplate.New s "{{" "}}" = Returned t ->
  let out := render tbl m true (tokens_of t).1 (fasttemplate.tags t) in
  replaceWithFastTemplate tbl t m true = Returned (out, None)
  /\ (forall tag,
        String.length (strings.TrimSpace tag) = 0 \/ m !! strings.TrimSpace tag = None ->
        piece tbl m true tag = "{{" ++ tag ++ "}}")
  /\ (forall tag,
        tag ∈ fasttemplate.tags t ->
        String.length (strings.TrimSpace tag) = 0 \/ m !! strings.TrimSpace tag = None ->
        exists pre post, out = pre ++ "{{" ++ tag ++ "}}" ++ post)
  /\ ((forall k v, m !! k = Some v -> Index v "{" = None) ->
      exists t', fasttemplate.New out "{{" "}}" = Returned t'
        /\ replaceWithFastTemplate tbl t' m true = Returned (out, None)).
Proof.
  intros Hnew out.
  assert (forall tag,
    String.length (strings.TrimSpace tag) = 0 \/ m !! strings.TrimSpace tag = None ->
    piece tbl m true tag = "{{" ++ tag ++ "}}") as Hpiece.
  { intros tag Hu%unresolved_iff. unfold piece. by rewrite Hu. }
  pose proof (New_tokens _ _ Hnew) as (_ & Hwf & _).
  rewrite (New_tags s) in Hwf by done.
  split_and!.
  - by apply (replaceWithFastTemplate_lenient tbl s).
  - done.
  - intros tag Hin Hu.
    destruct (render_contains tbl m true (tokens_of t).1 (fasttemplate.tags t) tag)
      as (pre & post & Hout); [by apply wf_tokens_length|done|].
    exists pre, post. unfold out. rewrite Hout, (Hpiece tag Hu).
    by rewrite !append_assoc.
  - intros Hvalues.
    destruct (render_tokens tbl m Hvalues _ _ Hwf "" (first_at_nil _))
      as (texts' & tags' & Hwf' & Hjoin & Hall).
    cbn [append] in Hjoin. fold out in Hjoin.
    destruct (New_join _ _ Hwf') as (t' & Hnew' & Htok).
    rewrite <- Hjoin in Hnew'. exists t'. split; [done|].
    rewrite (replaceWithFastTemplate_lenient tbl out) by done.
    rewrite <- (New_tags out) by done. rewrite Htok. cbn [fst snd].
    by rewrite render_all_unresolved, Hjoin.
Qed.

Lemma C5_witness :
  replaceWithFastTemplate no_wide_print
    (fasttemplate.mkTemplate "a{{ x }}b{{unknown}}" "{{" "}}" ["a"; "b"; ""] [" x "; "unknown"])
    (<["x" := "v"]> ∅) true
  = Returned ("avb{{unknown}}", None).
Proof.
  exact (proj1 (C5_unresolved_verbatim_second_pass no_wide_print "a{{ x }}b{{unknown}}"
    (fasttemplate.mkTemplate "a{{ x }}b{{unknown}}" "{{" "}}" ["a"; "b"; ""] [" x "; "unknown"])
    (<["x" := "v"]> ∅) eq_refl)).
Defined.

(** C5 as stated fails: a substituted value may itself hold a token that
    the mapping resolves, and the second pass then substitutes it. *)
Lemma C5_counterexample :
  exists t1 t2,
    fasttemplate.New "{{a}}{{unknown}}" "{{" "}}" = Returned t1
    /\ replaceWithFastTemplate no_wide_print t1
         (<["a" := "{{b}}"]> (<["b" := "x"]> ∅)) true
       = Returned ("{{b}}{{unknown}}", None)
    /\ fasttemplate.New "{{b}}{{unknown}}" "{{" "}}" = Returned t2
    /\ replaceWithFastTemplate no_wide_print t2
         (<["a" := "{{b}}"]> (<["b" := "x"]> ∅)) true
       = Returned ("x{{unknown}}", None)
    /\ "x{{unknown}}" <> "{{b}}{{unknown}}".
Proof.
  eexists _, _. split_and!; [reflexivity|vm_compute; reflexivity|reflexivity
                            |vm_compute; reflexivity|done].
Qed.

(** ** The renderer *)

Section RenderFacts.
Variable ApplicationSpec : Type.
Variable isPrintTables : Z -> bool.
Variable json_Marshal : Application ApplicationSpec -> string + string.
Variable json_Unmarshal : string -> Application ApplicationSpec + string.
Variable yaml_Marshal : Application ApplicationSpec -> string + string.
Variable yaml_Unmarshal : string -> Application ApplicationSpec + string.
Variable template_Parse : string -> list template.Node + string.

Local Abbreviation Render :=
  (RenderTemplateParams ApplicationSpec isPrintTables json_Marshal json_Unmarshal
     yaml_Marshal yaml_Unmarshal template_Parse).
Local Abbreviation deserialize :=
  (deserialize_rendered ApplicationSpec isPrintTables json_Marshal json_Unmarshal
     yaml_Marshal yaml_Unmarshal template_Parse).
Local Abbreviation fast_path :=
  (render_fasttemplate ApplicationSpec isPrintTables json_Marshal json_Unmarshal).
Local Abbreviation gotemplate_path :=
  (render_gotemplate ApplicationSpec yaml_Marshal yaml_Unmarshal template_Parse).

(** The substitutor never reports an error when it may leave tags unresolved. *)
Lemma replaceWithFastTemplate_lenient_no_error (t : fasttemplate.Template)
    (s : string) (m : gmap string string) (out : string) (err : option error) :
  fasttemplate.New s "{{" "}}" = Returned t ->
  replaceWithFastTemplate isPrintTables t m true = Returned (out, err) -> err = None.
Proof.
  intros Hnew. rewrite (replaceWithFastTemplate_lenient _ s) by done. by intros [= _ <-].
Qed.

(** The errors of the JSON branch are those of encoding/json. *)
Lemma render_fasttemplate_error (app : Application ApplicationSpec)
    (params : gmap string string) (e : error) :
  fast_path app params = Returned (inr e) -> exists msg, e = json_error msg.
Proof.
  unfold render_fasttemplate. destruct (json_Marshal app) as [text|msg]; [|intros [= <-]; eauto].
  destruct (fasttemplate.New text "{{" "}}") as [t|p|] eqn:Hnew; simpl; [|done..].
  rewrite (replaceWithFastTemplate_lenient _ text) by done. simpl.
  destruct (json_Unmarshal _) as [d|msg]; [done|]. intros [= <-]; eauto.
Qed.

(** The errors of the YAML branch are those of yaml and text/template. *)
Lemma render_gotemplate_error (app : Application ApplicationSpec)
    (params : gmap string string) (e : error) :
  gotemplate_path app params = Returned (inr e) ->
  exists msg, e = yaml_error msg \/ e = template_error msg.
Proof.
  unfold render_gotemplate. destruct (yaml_Marshal app) as [text|msg]; [|intros [= <-]; eauto].
  simpl. unfold Parse. destruct (template_Parse text) as [tree|msg]; [|intros [= <-]; eauto].
  unfold replaceWithGoTemplate, template.Execute. simpl.
  destruct (template.walk _ _ _ _) as [out [err|]] eqn:Hwalk.
  - intros [= <-]. clear -Hwalk. revert Hwalk. generalize "" as w.
    induction tree as [|n tree IH]; intros w; simpl; [done|].
    repeat case_match; try done; eauto; intros [= _ <-]; eauto.
  - destruct (yaml_Unmarshal out) as [d|msg]; [done|]. intros [= <-]; eauto.
Qed.

(** C4: with an empty parameter mapping the result is the very pointer that
    was passed in, without error, on an unchanged heap: nothing is
    serialized (the codecs are arbitrary), copied or given a finalizer. *)
Theorem C4_empty_params_identity (l : loc)
    (syncPolicy : option ApplicationSetSyncPolicy)
    (templateOptions : option ApplicationSetTemplateOptions)
    (h : gmap loc (Application ApplicationSpec)) :
  Render (Some l) syncPolicy templateOptions ∅ h = Returned ((Some l, None), h).
Proof. reflexivity. Qed.

(** C7: a nil template gives the error "application template is empty "
    and no object; and whenever RenderTemplateParams returns an error, the
    object returned with it is nil and the heap holds no new object. *)
Theorem C7_error_without_object :
  (forall syncPolicy templateOptions params h,
     Render None syncPolicy templateOptions params h
     = Returned ((None, Some (fmt_Errorf "application template is empty ")), h))
  /\ (forall tmpl syncPolicy templateOptions params h obj err h',
        Render tmpl syncPolicy templateOptions params h = Returned ((obj, Some err), h') ->
        obj = None /\ h' = h).
Proof.
  split; [done|]. intros tmpl sp to params h obj err h'. unfold RenderTemplateParams.
  destruct tmpl as [l|]; [|by intros [= <- _ <-]].
  destruct (size params =? 0)%nat; [done|].
  destruct (h !! l) as [app|]; [|done].
  destruct (deserialize to app params) as [[d|e]|p|]; simpl; [done| |done..].
  by intros [= <- _ <-].
Qed.

Lemma render_fasttemplate_spec (app : Application ApplicationSpec)
    (params : gmap string string) :
  fast_path app params
  = match json_Marshal app with
    | inr e => Returned (inr (json_error e))
    | inl tmplBytes =>
        fstTmpl ← fasttemplate.New tmplBytes "{{" "}}";
        match json_Unmarshal
                (render isPrintTables params true (tokens_of fstTmpl).1
                   (fasttemplate.tags fstTmpl)) with
        | inr e => Returned (inr (json_error e))
        | inl replacedTmpl => Returned (inl replacedTmpl)
        end
    end.
Proof.
  unfold render_fasttemplate. destruct (json_Marshal app) as [text|msg]; [|done].
  destruct (fasttemplate.New text "{{" "}}") as [t|p|] eqn:Hnew; simpl; [|done..].
  by rewrite (replaceWithFastTemplate_lenient _ text) by done.
Qed.

Lemma render_gotemplate_spec (app : Application ApplicationSpec)
    (params : gmap string string) :
  gotemplate_path app params
  = match yaml_Marshal app with
    | inr e => Returned (inr (yaml_error e))
    | inl tmplBytes =>
        match template_Parse tmplBytes with
        | inr e => Returned (inr (template_error e))
        | inl tree =>
            match template.walk template.mapZeroValue params tree "" with
            | (_, Some e) => Returned (inr e)
            | (replacedTmplStr, None) =>
                match yaml_Unmarshal replacedTmplStr with
                | inr e => Returned (inr (yaml_error e))
                | inl replacedTmpl => Returned (inl replacedTmpl)
                end
            end
        end
    end.
Proof.
  unfold render_gotemplate. destruct (yaml_Marshal app) as [text|msg]; [|done].
  simpl. unfold Parse. destruct (template_Parse text) as [tree|msg]; [|done].
  unfold replaceWithGoTemplate, template.Execute. simpl.
  by destruct (template.walk _ _ _ _) as [out [err|]].
Qed.

(** C3: RenderTemplateParams takes the JSON branch with the escaping
    substitutor, run with allowUnresolved = true, when templateOptions is
    nil or GotemplateEnabled is false, and the YAML branch with the
    template evaluator (missingkey=zero) when GotemplateEnabled is true;
    and no call of RenderTemplateParams returns the substitutor's error
    "failed to resolve {{tag}}". *)
Theorem C3_dispatch_never_unresolved_error :
  (forall app params,
     deserialize None app params = fast_path app params)
  /\ (forall o app params,
        GotemplateEnabled o = false ->
        deserialize (Some o) app params = fast_path app params)
  /\ (forall o app params,
        GotemplateEnabled o = true ->
        deserialize (Some o) app params = gotemplate_path app params)
  /\ (forall app params,
        fast_path app params
        = match json_Marshal app with
          | inr e => Returned (inr (json_error e))
          | inl tmplBytes =>
              fstTmpl ← fasttemplate.New tmplBytes "{{" "}}";
              '(replacedTmplStr, _) ←
                replaceWithFastTemplate isPrintTables fstTmpl params true;
              match json_Unmarshal replacedTmplStr with
              | inr e => Returned (inr (json_error e))
              | inl replacedTmpl => Returned (inl replacedTmpl)
              end
          end)
  /\ (forall app params,
        gotemplate_path app params
        = match yaml_Marshal app with
          | inr e => Returned (inr (yaml_error e))
          | inl tmplBytes =>
              match template_Parse tmplBytes with
              | inr e => Returned (inr (template_error e))
              | inl tree =>
                  match template.walk template.mapZeroValue params tree "" with
                  | (_, Some e) => Returned (inr e)
                  | (replacedTmplStr, None) =>
                      match yaml_Unmarshal replacedTmplStr with
                      | inr e => Returned (inr (yaml_error e))
                      | inl replacedTmpl => Returned (inl replacedTmpl)
                      end
                  end
              end
          end)
  /\ (forall tmpl syncPolicy templateOptions params h obj tag h',
        Render tmpl syncPolicy templateOptions params h
        <> Returned ((obj, Some (fmt_Errorf ("failed to resolve {{" ++ tag ++ "}}"))), h')).
Proof.
  split_and!.
  - done.
  - intros o app params Ho. unfold deserialize_rendered. by rewrite Ho.
  - intros o app params Ho. unfold deserialize_rendered. by rewrite Ho.
  - intros app params. rewrite render_fasttemplate_spec.
    destruct (json_Marshal app) as [text|msg]; [|done].
    destruct (fasttemplate.New text "{{" "}}") as [t|p|] eqn:Hnew; simpl; [|done..].
    by rewrite (replaceWithFastTemplate_lenient _ text) by done.
  - apply render_gotemplate_spec.
  - intros tmpl sp to params h obj tag h'. unfold RenderTemplateParams.
    destruct tmpl as [l|]; [|done].
    destruct (size params =? 0)%nat; [done|].
    destruct (h !! l) as [app|]; [|done].
    destruct (deserialize to app params) as [[d|e]|p|] eqn:Hd; simpl; [done| |done..].
    intros [= _ -> _]. unfold deserialize_rendered in Hd.
    destruct (match to with None => true | Some o => negb (GotemplateEnabled o) end).
    + by apply render_fasttemplate_error in Hd as [msg ?].
    + by apply render_gotemplate_error in Hd as [msg [?|?]].
Qed.

(** C1: when the parameter mapping is not empty and RenderTemplateParams
    succeeds, its result is a new object, made from the deserialized one by
    the finalizer rule alone: if no preservation is requested (syncPolicy
    is nil or PreserveResourcesOnDeletion is false) and the deserialized
    finalizers are nil or empty, the finalizers become exactly
    ["resources-finalizer.argocd.argoproj.io"]; if the deserialized
    finalizers are not empty, or preservation is requested, the object is
    the deserialized one, finalizers unchanged.  The template's object
    stays as it was. *)
Theorem C1_finalizer_rule (l : loc)
    (syncPolicy : option ApplicationSetSyncPolicy)
    (templateOptions : option ApplicationSetTemplateOptions)
    (params : gmap string string) (h h' : gmap loc (Application ApplicationSpec))
    (res : option loc) :
  size params <> 0 ->
  Render (Some l) syncPolicy templateOptions params h = Returned ((res, None), h') ->
  exists app d l' r,
    h !! l = Some app
    /\ deserialize templateOptions app params = Returned (inl d)
    /\ res = Some l' /\ h !! l' = None /\ h' = <[l' := r]> h /\ h' !! l = Some app
    /\ App_Spec r = App_Spec d
    /\ Name (App_ObjectMeta r) = Name (App_ObjectMeta d)
    /\ Annotations (App_ObjectMeta r) = Annotations (App_ObjectMeta d)
    /\ ((syncPolicy = None
         \/ exists sp, syncPolicy = Some sp /\ PreserveResourcesOnDeletion sp = false) ->
        (Finalizers (App_ObjectMeta d) = None \/ Finalizers (App_ObjectMeta d) = Some []) ->
        Finalizers (App_ObjectMeta r) = Some ["resources-finalizer.argocd.argoproj.io"])
    /\ ((exists f fs, Finalizers (App_ObjectMeta d) = Some (f :: fs))
        \/ (exists sp, syncPolicy = Some sp /\ PreserveResourcesOnDeletion sp = true) ->
        r = d).
Proof.
  intros Hsize. unfold RenderTemplateParams.
  destruct (size params =? 0)%nat eqn:Hs; [by apply Nat.eqb_eq in Hs|].
  destruct (h !! l) as [app|] eqn:Hl; [|done].
  destruct (deserialize templateOptions app params) as [[d|e]|p|] eqn:Hd; simpl; [|done..].
  intros [= <- <-].
  assert (h !! fresh (dom h) = None) as Hfresh.
  { apply not_elem_of_dom. apply is_fresh. }
  exists app, d, (fresh (dom h)), (add_finalizer syncPolicy d).
  split_and!; try done.
  - rewrite lookup_insert_ne; [done|]. intros Heq. rewrite Heq in Hfresh. congruence.
  - unfold add_finalizer. by destruct (_ && _).
  - unfold add_finalizer. by destruct (_ && _).
  - unfold add_finalizer. by destruct (_ && _).
  - intros Hsp Hfin. unfold add_finalizer.
    assert (match syncPolicy with
            | Some sp => negb (PreserveResourcesOnDeletion sp)
            | None => true
            end = true) as ->.
    { destruct Hsp as [->|(sp & -> & ->)]; done. }
    by destruct Hfin as [-> | ->].
  - intros Hkeep. unfold add_finalizer.
    destruct Hkeep as [(f & fs & ->)|(sp & -> & ->)]; simpl; [|done].
    by rewrite andb_false_r.
Qed.

End RenderFacts.

(** ** Escaping, and reading the escaped value back as JSON *)

Lemma escape_ascii (tbl : Z -> bool) (c : ascii) (v : string) :
  (byte_val c < 0x80)%Z ->
  escape tbl (String c v)
  = strconv.appendEscapedRune tbl (byte_val c) strconv.dquote ++ escape tbl v.
Proof.
  intros Hc. unfold escape. cbn [strconv.appendQuotedWith_loop].
  unfold utf8.RuneSelf, utf8.RuneError.
  destruct (Z.ltb_spec (byte_val c) 128); [|lia].
  destruct (Z.eqb_spec (byte_val c) 65533); [lia|]. by rewrite andb_false_r.
Qed.

Lemma escape_newline (tbl : Z -> bool) (v : string) :
  escape tbl (chr 10 ++ v) = "\n" ++ escape tbl v.
Proof.
  change (chr 10 ++ v) with (String (ascii_of_nat 10) v).
  by rewrite (escape_ascii tbl (ascii_of_nat 10) v).
Qed.

Lemma escape_tab (tbl : Z -> bool) (v : string) :
  escape tbl (chr 9 ++ v) = "\t" ++ escape tbl v.
Proof.
  change (chr 9 ++ v) with (String (ascii_of_nat 9) v).
  by rewrite (escape_ascii tbl (ascii_of_nat 9) v).
Qed.

Lemma escape_quote (tbl : Z -> bool) (v : string) :
  escape tbl (chr 34 ++ v) = "\" ++ chr 34 ++ escape tbl v.
Proof.
  change (chr 34 ++ v) with (String (ascii_of_nat 34) v).
  by rewrite (escape_ascii tbl (ascii_of_nat 34) v).
Qed.

Lemma escape_backslash (tbl : Z -> bool) (v : string) :
  escape tbl ("\" ++ v) = "\\" ++ escape tbl v.
Proof.
  change ("\" ++ v) with (String "\"%char v).
  by rewrite (escape_ascii tbl "\"%char v).
Qed.

Lemma unquote_loop_escaped (tbl : Z -> bool) (v : string) :
  all_bytes json_safe v = true -> json.unquote_loop 0 (escape tbl v) = Some v.
Proof.
  induction v as [|c v IH]; [done|]. cbn [all_bytes]. intros [Hc Hv]%andb_true_iff.
  specialize (IH Hv). unfold json_safe in Hc. pose proof (byte_val_range c) as Hr.
  rewrite escape_ascii by (repeat case_cmp; simpl in Hc; lia).
  replace (String c v) with (String (byte_of (byte_val c)) v) by (by rewrite byte_of_byte_val).
  revert Hc Hr. generalize (byte_val c) as b.
  intros b Hc Hr. unfold strconv.appendEscapedRune, strconv.IsPrint, utf8.EncodeRune.
  change (byte_val strconv.dquote) with 34%Z.
  repeat (case_cmp; cbn [andb orb negb] in *; try lia; try done; subst).
  all: set (e := escape tbl v) in *.
  all: try (simpl; rewrite IH; reflexivity).
  all: cbn [append json.unquote_loop].
  all: rewrite byte_val_byte_of, Z.mod_small by lia.
  all: unfold utf8.RuneSelf.
  all: repeat (case_cmp; cbn [andb orb negb] in *; try lia).
  all: by rewrite IH.
Qed.

Lemma unquote_Quote (tbl : Z -> bool) (v : string) :
  all_bytes json_safe v = true -> json.unquote (strconv.Quote tbl v) = Some v.
Proof.
  intros Hv. unfold json.unquote.
  change (strconv.Quote tbl v) with (json.dq ++ escape tbl v ++ json.dq).
  set (e := escape tbl v) in *.
  assert (String.length (json.dq ++ e ++ json.dq) = S (S (String.length e))) as Hlen.
  { rewrite !length_append. simpl. lia. }
  rewrite Hlen. cbn [Nat.ltb Nat.leb].
  replace (S (S (String.length e)) - 1) with (String.length (json.dq ++ e))
    by (rewrite length_append; simpl; lia).
  rewrite <- (append_assoc json.dq e json.dq), slice_from_app.
  change (slice_to 1 ((json.dq ++ e) ++ json.dq)) with json.dq.
  rewrite String.eqb_refl. cbn [negb].
  unfold slice. rewrite length_append. cbn [json.dq append slice_from String.length].
  replace (1 + String.length e - 1) with (String.length e) by lia.
  rewrite slice_to_app. by apply unquote_loop_escaped.
Qed.

(** C2: the tag function writes the value of a resolved key escaped:
    a newline, a tab, a double quote and a backslash of the value become
    the two characters of their escape sequence; the escaped form of a
    value of printable ASCII and such control characters, between quotes as
    it stands in the JSON text, is a string literal that encoding/json
    reads back as the value; and rendering a template whose name is {{x}}
    with x bound to a, newline, b, double quote, c gives an object whose
    name is that very value. *)
Theorem C2_resolved_values_escaped (tbl : Z -> bool) :
  (forall (m : gmap string string) allow w tag st v,
     String.length (strings.TrimSpace tag) <> 0 ->
     m !! strings.TrimSpace tag = Some v ->
     exists n, replaceWithFastTemplate_func tbl m allow w tag st
               = ((w ++ escape tbl v, st), (n, None)))
  /\ (forall v, escape tbl (chr 10 ++ v) = "\n" ++ escape tbl v)
  /\ (forall v, escape tbl (chr 9 ++ v) = "\t" ++ escape tbl v)
  /\ (forall v, escape tbl (chr 34 ++ v) = "\" ++ chr 34 ++ escape tbl v)
  /\ (forall v, escape tbl ("\" ++ v) = "\\" ++ escape tbl v)
  /\ (forall v, all_bytes json_safe v = true ->
        json.unquote (json.dq ++ escape tbl v ++ json.dq) = Some v)
  /\ Mini.Render (Some 1%positive) None None
       (<["x" := "a" ++ chr 10 ++ "b" ++ chr 34 ++ "c"]> ∅)
       (<[1%positive := Mini.mkApp "{{x}}" None]> ∅)
     = Returned ((Some 2%positive, None),
         <[2%positive := Mini.mkApp ("a" ++ chr 10 ++ "b" ++ chr 34 ++ "c")
                           (Some ["resources-finalizer.argocd.argoproj.io"])]>
           (<[1%positive := Mini.mkApp "{{x}}" None]> ∅)).
Proof.
  split_and!.
  - intros m allow w tag st v Hlen Hv.
    destruct (replaceWithFastTemplate_func_spec tbl m allow w tag st) as [n ->].
    assert (unresolved m tag = false) as Hu.
    { unfold unresolved. rewrite Hv. apply Nat.eqb_neq in Hlen. rewrite Hlen.
      by rewrite bool_decide_true by eauto. }
    exists n. unfold piece. by rewrite Hu, Hv.
  - apply escape_newline.
  - apply escape_tab.
  - apply escape_quote.
  - apply escape_backslash.
  - apply unquote_Quote.
  - vm_compute. reflexivity.
Qed.

Lemma C2_witness :
  json.unquote
    (json.dq ++ escape no_wide_print ("a" ++ chr 10 ++ "b" ++ chr 34 ++ "c") ++ json.dq)
  = Some ("a" ++ chr 10 ++ "b" ++ chr 34 ++ "c").
Proof.
  apply (C2_resolved_values_escaped no_wide_print). reflexivity.
Defined.

(** ** The template evaluator *)

Lemma walk_plain (data : gmap string string) (tree : list template.Node) (wr : string) :
  Forall (fun n => template.plain n = true) tree ->
  template.walk template.mapZeroValue data tree wr
  = (wr ++ template.tree_text data tree, None).
Proof.
  intros Hplain. revert wr; induction Hplain as [|n tree Hn _ IH]; intros wr.
  - simpl. by rewrite append_nil_r.
  - cbn [template.walk template.tree_text].
    destruct n as [text|[|k [|k' ident]]|run]; try done.
    + rewrite IH. by rewrite append_assoc.
    + cbn [template.evalFieldChain template.evalField template.node_text].
      destruct (data !! k) as [v|]; simpl; rewrite IH; by rewrite append_assoc.
Qed.

Section EvaluatorFacts.
Variable ApplicationSpec : Type.
Variable yaml_Marshal : Application ApplicationSpec -> string + string.
Variable yaml_Unmarshal : string -> Application ApplicationSpec + string.
Variable template_Parse : string -> list template.Node + string.

(** C6: the template RenderTemplateParams builds carries missingkey=zero;
    under it a reference to a key the mapping lacks evaluates to the zero
    value of the map's element type, the empty string, without error; a
    template of text and single field references therefore executes
    without error, a missing key giving nothing and a present key its
    value, and the YAML branch then fails on such a template only when
    yaml fails. *)
Theorem C6_missing_key_is_empty :
  template.Option_ (template.New "argocd-app") "missingkey=zero"
    = Returned (template.mkTemplate "argocd-app" template.mapZeroValue [])
  /\ (forall (params : gmap string string) k,
        params !! k = None ->
        template.evalFieldChain template.mapZeroValue (template.VMap params) [k]
        = inl (template.VString ""))
  /\ (forall (params : gmap string string) k wr rest,
        params !! k = None ->
        template.walk template.mapZeroValue params (template.FieldNode [k] :: rest) wr
        = template.walk template.mapZeroValue params rest wr)
  /\ (forall name tree (params : gmap string string),
        Forall (fun n => template.plain n = true) tree ->
        replaceWithGoTemplate (template.mkTemplate name template.mapZeroValue tree) params
        = (template.tree_text params tree, None))
  /\ (forall app tmplBytes tree (params : gmap string string),
        yaml_Marshal app = inl tmplBytes ->
        template_Parse tmplBytes = inl tree ->
        Forall (fun n => template.plain n = true) tree ->
        render_gotemplate ApplicationSpec yaml_Marshal yaml_Unmarshal template_Parse
          app params
        = match yaml_Unmarshal (template.tree_text params tree) with
          | inr e => Returned (inr (yaml_error e))
          | inl replacedTmpl => Returned (inl replacedTmpl)
          end).
Proof.
  split_and!.
  - done.
  - intros params k Hk. simpl. by rewrite Hk.
  - intros params k wr rest Hk. simpl. rewrite Hk. simpl. by rewrite append_nil_r.
  - intros name tree params Hplain. unfold replaceWithGoTemplate, template.Execute. simpl.
    by rewrite walk_plain.
  - intros app text tree params Hm Hp Hplain.
    rewrite render_gotemplate_spec, Hm, Hp. by rewrite walk_plain.
Qed.

End EvaluatorFacts.

Lemma C6_witness :
  replaceWithGoTemplate
    (template.mkTemplate "argocd-app" template.mapZeroValue
       [template.TextNode "name: "; template.FieldNode ["x"]; template.TextNode "-";
        template.FieldNode ["missing"]])
    (<["x" := "abc"]> ∅)
  = (template.tree_text (<["x" := "abc"]> ∅)
       [template.TextNode "name: "; template.FieldNode ["x"]; template.TextNode "-";
        template.FieldNode ["missing"]], None).
Proof.
  apply (proj1 (proj2 (proj2 (proj2
    (C6_missing_key_is_empty unit Mini.Marshal Mini.Unmarshal Mini.Parse))))).
  repeat constructor.
Defined.

(** ** The generator inspector *)

Section InspectorFacts.
Variable Variant : Type.
Variable float64 : Type.
Variable json_Unmarshal_map : string -> gmap string (jvalue float64) + string.
Variable range_first : gmap string (jvalue float64) -> option string.

Local Abbreviation addNames :=
  (addInvalidGeneratorNames Variant float64 json_Unmarshal_map range_first).
Local Abbreviation inspect :=
  (invalidGenerators Variant float64 json_Unmarshal_map range_first).
Local Abbreviation inspect_loop :=
  (invalidGenerators_loop Variant float64 json_Unmarshal_map range_first).

Lemma found_loop_false (g : ApplicationSetGenerator Variant) :
  found_loop g = false <-> Forall (fun slot => slot = None) g.
Proof.
  induction g as [|slot g IH]; simpl; [done|].
  rewrite Forall_cons. destruct slot as [v|]; simpl.
  - split; [done|]. by intros [? _].
  - rewrite IH. split; [auto|by intros [_ ?]].
Qed.

Lemma invalidGenerators_loop_flag (info : ApplicationSet Variant) (index : nat)
    (gens : list (ApplicationSetGenerator Variant)) (flag : bool)
    (names : gmap string bool) :
  (inspect_loop info index gens flag names).1 = true
  <-> flag = true \/ Exists (Forall (fun slot => slot = None)) gens.
Proof.
  revert index flag names; induction gens as [|g gens IH]; intros index flag names; simpl.
  - rewrite Exists_nil. tauto.
  - rewrite Exists_cons. destruct (found_loop g) eqn:Hg; simpl; rewrite IH.
    + assert (~ Forall (fun slot => slot = None) g) by (rewrite <- found_loop_false; congruence).
      tauto.
    + apply found_loop_false in Hg. tauto.
Qed.

(** When no name can be recovered at any index, no name is recorded. *)
Lemma invalidGenerators_loop_names (info : ApplicationSet Variant) (index : nat)
    (gens : list (ApplicationSetGenerator Variant)) (flag : bool)
    (names : gmap string bool) :
  (forall names' i, addNames names' info i = names') ->
  (inspect_loop info index gens flag names).2 = names.
Proof.
  intros Hno. revert index flag; induction gens as [|g gens IH]; intros index flag; simpl; [done|].
  destruct (found_loop g); simpl; rewrite ?Hno; apply IH.
Qed.

(** C9: the inspector reports invalid generators exactly when some
    generator record has all its slots nil; name recovery leaves the names
    as they were, without failing, when the annotation is missing (and the
    parser rejects the empty text), when its text is not valid JSON, when
    spec is missing or no object, when generators is missing or no array,
    when the index is out of range, and when the element is no object; so
    with an annotation that does not parse and an all-nil record the
    inspector returns true and no name. *)
Theorem C9_inspector_degrades_to_no_name :
  (forall info,
     (inspect info).1 = true
     <-> exists g, g ∈ Generators info /\ Forall (fun slot => slot = None) g)
  /\ (forall names info index e,
        Annotations (Set_ObjectMeta info) !! last_applied_configuration = None ->
        json_Unmarshal_map "" = inr e ->
        addNames names info index = names)
  /\ (forall names info index e,
        json_Unmarshal_map (config_of info) = inr e ->
        addNames names info index = names)
  /\ (forall names info index values,
        json_Unmarshal_map (config_of info) = inl values ->
        (forall spec, values !! "spec" <> Some (JObject spec)) ->
        addNames names info index = names)
  /\ (forall names info index values spec,
        json_Unmarshal_map (config_of info) = inl values ->
        values !! "spec" = Some (JObject spec) ->
        (forall generators, spec !! "generators" <> Some (JArray generators)) ->
        addNames names info index = names)
  /\ (forall names info index values spec generators,
        json_Unmarshal_map (config_of info) = inl values ->
        values !! "spec" = Some (JObject spec) ->
        spec !! "generators" = Some (JArray generators) ->
        length generators <= index ->
        addNames names info index = names)
  /\ (forall names info index values spec generators x,
        json_Unmarshal_map (config_of info) = inl values ->
        values !! "spec" = Some (JObject spec) ->
        spec !! "generators" = Some (JArray generators) ->
        generators !! index = Some x ->
        (forall generator, x <> JObject generator) ->
        addNames names info index = names)
  /\ (forall info e,
        json_Unmarshal_map (config_of info) = inr e ->
        (exists g, g ∈ Generators info /\ Forall (fun slot => slot = None) g) ->
        inspect info = (true, ∅)).
Proof.
  assert (forall info,
    (inspect info).1 = true
    <-> exists g, g ∈ Generators info /\ Forall (fun slot => slot = None) g) as Hflag.
  { intros info. unfold invalidGenerators. rewrite invalidGenerators_loop_flag.
    rewrite Exists_exists. split; [by intros [?|?]|auto]. }
  assert (forall names info index e,
    json_Unmarshal_map (config_of info) = inr e -> addNames names info index = names) as Hbad.
  { intros names info index e He. unfold addInvalidGeneratorNames.
    fold (config_of info). by rewrite He. }
  split_and!.
  - done.
  - intros names info index e Hmiss He. apply (Hbad _ _ _ e).
    unfold config_of. by rewrite Hmiss.
  - done.
  - intros names info index values Hv Hspec. unfold addInvalidGeneratorNames.
    fold (config_of info). rewrite Hv.
    destruct (values !! "spec") as [[]|] eqn:E; try done. by destruct (Hspec m).
  - intros names info index values spec Hv Hspec Hgen. unfold addInvalidGeneratorNames.
    fold (config_of info). rewrite Hv, Hspec.
    destruct (spec !! "generators") as [[]|] eqn:E; try done. by destruct (Hgen l).
  - intros names info index values spec generators Hv Hspec Hgen Hlen.
    unfold addInvalidGeneratorNames. fold (config_of info). rewrite Hv, Hspec, Hgen.
    apply Nat.leb_le in Hlen. by rewrite Hlen.
  - intros names info index values spec generators x Hv Hspec Hgen Hx Hnot.
    unfold addInvalidGeneratorNames. fold (config_of info). rewrite Hv, Hspec, Hgen, Hx.
    destruct (length generators <=? index)%nat; [done|].
    destruct x; try done. by destruct (Hnot m).
  - intros info e He Hex. apply Hflag in Hex.
    destruct (inspect info) as [flag names] eqn:Hi. simpl in Hex. subst flag. f_equal.
    change names with ((true, names).2). rewrite <- Hi.
    unfold invalidGenerators. apply invalidGenerators_loop_names.
    intros names' i. by apply (Hbad _ _ _ e).
Qed.

End InspectorFacts.

(** ** The theorems at concrete inputs *)

Lemma C1_witness :
  exists app d l' r,
    (<[1%positive := Mini.mkApp "{{x}}" None]> ∅ : gmap loc Mini.App) !! 1%positive = Some app
    /\ deserialize_rendered unit no_wide_print Mini.Marshal Mini.Unmarshal Mini.Marshal
         Mini.Unmarshal Mini.Parse None app (<["x" := "v"]> ∅) = Returned (inl d)
    /\ Some 2%positive = Some l'
    /\ (<[1%positive := Mini.mkApp "{{x}}" None]> ∅ : gmap loc Mini.App) !! l' = None
    /\ (<[2%positive := Mini.mkApp "v" (Some ["resources-finalizer.argocd.argoproj.io"])]>
          (<[1%positive := Mini.mkApp "{{x}}" None]> ∅) : gmap loc Mini.App)
       = <[l' := r]> (<[1%positive := Mini.mkApp "{{x}}" None]> ∅)
    /\ (<[2%positive := Mini.mkApp "v" (Some ["resources-finalizer.argocd.argoproj.io"])]>
          (<[1%positive := Mini.mkApp "{{x}}" None]> ∅) : gmap loc Mini.App) !! 1%positive
       = Some app
    /\ App_Spec r = App_Spec d
    /\ Name (App_ObjectMeta r) = Name (App_ObjectMeta d)
    /\ Annotations (App_ObjectMeta r) = Annotations (App_ObjectMeta d)
    /\ (((None : option ApplicationSetSyncPolicy) = None
         \/ exists sp, None = Some sp /\ PreserveResourcesOnDeletion sp = false) ->
        (Finalizers (App_ObjectMeta d) = None \/ Finalizers (App_ObjectMeta d) = Some []) ->
        Finalizers (App_ObjectMeta r) = Some ["resources-finalizer.argocd.argoproj.io"])
    /\ ((exists f fs, Finalizers (App_ObjectMeta d) = Some (f :: fs))
        \/ (exists sp, (None : option ApplicationSetSyncPolicy) = Some sp
                       /\ PreserveResourcesOnDeletion sp = true) ->
        r = d).
Proof.
  apply (C1_finalizer_rule unit no_wide_print Mini.Marshal Mini.Unmarshal Mini.Marshal
           Mini.Unmarshal Mini.Parse 1%positive None None (<["x" := "v"]> ∅)
           (<[1%positive := Mini.mkApp "{{x}}" None]> ∅)
           (<[2%positive := Mini.mkApp "v" (Some ["resources-finalizer.argocd.argoproj.io"])]>
              (<[1%positive := Mini.mkApp "{{x}}" None]> ∅))
           (Some 2%positive)).
  - vm_compute. intros H. discriminate H.
  - vm_compute. reflexivity.
Defined.

Lemma C3_witness :
  deserialize_rendered unit no_wide_print Mini.Marshal Mini.Unmarshal Mini.Marshal
    Mini.Unmarshal Mini.Parse (Some (mkTemplateOptions true)) (Mini.mkApp "{{.x}}" None)
    (<["x" := "v"]> ∅)
  = render_gotemplate unit Mini.Marshal Mini.Unmarshal Mini.Parse (Mini.mkApp "{{.x}}" None)
      (<["x" := "v"]> ∅).
Proof.
  apply (proj1 (proj2 (proj2
    (C3_dispatch_never_unresolved_error unit no_wide_print Mini.Marshal Mini.Unmarshal
       Mini.Marshal Mini.Unmarshal Mini.Parse)))).
  reflexivity.
Defined.

Lemma C7_witness :
  (None : option loc) = None
  /\ (∅ : gmap loc Mini.App) = ∅.
Proof.
  apply (proj2 (C7_error_without_object unit no_wide_print Mini.Marshal Mini.Unmarshal
           Mini.Marshal Mini.Unmarshal Mini.Parse)
           None None None (<["x" := "v"]> ∅) ∅ None
           (fmt_Errorf "application template is empty ") ∅).
  reflexivity.
Defined.

Lemma C9_witness :
  MiniJSON.inspect
    (MiniJSON.owner (<[last_applied_configuration := "{"]> ∅)
       [[Some tt; None]; [None; None]])
  = (true, ∅).
Proof.
  apply (proj2 (proj2 (proj2 (proj2 (proj2 (proj2 (proj2
    (C9_inspector_degrades_to_no_name unit Z MiniJSON.Unmarshal_map MiniJSON.range_first))))))))
    with (e := "invalid JSON text").
  - vm_compute. reflexivity.
  - exists [None; None]. split; [|repeat constructor].
    apply list_elem_of_further, list_elem_of_here.
Defined.

(** * Further properties of the substitutor *)

Lemma resolved_iff (m : gmap string string) (tag : string) :
  resolved m tag <-> unresolved m tag = false.
Proof.
  unfold resolved, unresolved.
  rewrite orb_false_iff, Nat.eqb_neq, negb_false_iff, bool_decide_eq_true. done.
Qed.

Lemma replaceWithFastTemplate_no_start_tag (tbl : Z -> bool) (s : string)
    (m : gmap string string) (allowUnresolved : bool) :
  Index s "{{" = None ->
  exists t, fasttemplate.New s "{{" "}}" = Returned t
    /\ replaceWithFastTemplate tbl t m allowUnresolved = Returned (s, None).
Proof.
  intros Hs.
  destruct (New_join [s] [] (wf_tokens_last s Hs)) as (t & Hnew & Htok).
  cbn [join] in Hnew. exists t. split; [done|].
  unfold replaceWithFastTemplate.
  rewrite (replaceWithFastTemplate_exec_spec tbl s) by done. rewrite Htok. simpl.
  by destruct allowUnresolved.
Qed.

(** X1: a text without a start tag is a template of its own, and the
    substitutor gives it back unchanged and without error, whatever the
    mapping and whether or not unresolved tags are allowed. *)
Theorem text_without_tags_unchanged (tbl : Z -> bool) (s : string)
    (m : gmap string string) (allowUnresolved : bool) :
  Index s "{{" = None ->
  exists t, fasttemplate.New s "{{" "}}" = Returned t
    /\ replaceWithFastTemplate tbl t m allowUnresolved = Returned (s, None).
Proof. apply replaceWithFastTemplate_no_start_tag. Qed.

Lemma text_without_tags_unchanged_witness :
  exists t, fasttemplate.New "{a} b }}" "{{" "}}" = Returned t
    /\ replaceWithFastTemplate no_wide_print t (<["a" := "v"]> ∅) false
       = Returned ("{a} b }}", None).
Proof.
  apply (text_without_tags_unchanged no_wide_print "{a} b }}" (<["a" := "v"]> ∅) false).
  reflexivity.
Defined.

(** X2: when unresolved tags are allowed and no tag of the template
    resolves, the substitutor returns the template text itself. *)
Theorem nothing_resolved_text_unchanged (tbl : Z -> bool) (s : string)
    (t : fasttemplate.Template) (m : gmap string string) :
  fasttemplate.New s "{{" "}}" = Returned t ->
  (forall tag, tag ∈ fasttemplate.tags t ->
     String.length (strings.TrimSpace tag) = 0 \/ m !! strings.TrimSpace tag = None) ->
  replaceWithFastTemplate tbl t m true = Returned (s, None).
Proof.
  intros Hnew Hall. rewrite (replaceWithFastTemplate_lenient tbl s) by done.
  pose proof (New_tokens _ _ Hnew) as (_ & _ & Hjoin).
  rewrite (New_tags s) in Hjoin by done.
  rewrite render_all_unresolved; [by rewrite Hjoin|].
  apply Forall_forall. intros tag Hin. by apply unresolved_iff, Hall.
Qed.

Lemma nothing_resolved_text_unchanged_witness :
  replaceWithFastTemplate no_wide_print
    (fasttemplate.mkTemplate "a{{x}}b{{ }}" "{{" "}}" ["a"; "b"; ""] ["x"; " "])
    (<["y" := "v"]> ∅) true
  = Returned ("a{{x}}b{{ }}", None).
Proof.
  apply (nothing_resolved_text_unchanged no_wide_print "a{{x}}b{{ }}"
           (fasttemplate.mkTemplate "a{{x}}b{{ }}" "{{" "}}" ["a"; "b"; ""] ["x"; " "])
           (<["y" := "v"]> ∅)).
  - reflexivity.
  - intros tag Hin. apply elem_of_cons in Hin as [->|Hin]; [right; reflexivity|].
    apply elem_of_cons in Hin as [->|Hin]; [left; reflexivity|].
    by apply elem_of_nil in Hin.
Defined.

Lemma render_all_resolved (tbl : Z -> bool) (m : gmap string string)
    (texts tags : list string) :
  Forall (fun g => unresolved m g = false) tags ->
  render tbl m false texts tags = render tbl m true texts tags.
Proof.
  intros Hall. revert texts; induction Hall as [|tag tags Hu _ IH]; intros texts.
  - by destruct texts.
  - destruct texts as [|text texts]; [done|]. cbn [render]. unfold piece.
    by rewrite Hu, IH.
Qed.

(** X3: when every tag of the template resolves, the substitutor returns
    the same text and no error whether or not unresolved tags are allowed. *)
Theorem all_resolved_modes_agree (tbl : Z -> bool) (s : string)
    (t : fasttemplate.Template) (m : gmap string string) :
  fasttemplate.New s "{{" "}}" = Returned t ->
  (forall tag, tag ∈ fasttemplate.tags t -> resolved m tag) ->
  exists out,
    replaceWithFastTemplate tbl t m false = Returned (out, None)
    /\ replaceWithFastTemplate tbl t m true = Returned (out, None).
Proof.
  intros Hnew Hall.
  assert (Forall (fun g => unresolved m g = false) (fasttemplate.tags t)) as Hres.
  { apply Forall_forall. intros tag Hin. by apply resolved_iff, Hall. }
  exists (render tbl m true (tokens_of t).1 (fasttemplate.tags t)).
  rewrite (replaceWithFastTemplate_strict tbl s), (replaceWithFastTemplate_lenient tbl s)
    by done.
  apply last_unresolved_None in Hres as Hnone. rewrite Hnone.
  by rewrite render_all_resolved.
Qed.

Lemma all_resolved_modes_agree_witness :
  exists out,
    replaceWithFastTemplate no_wide_print
      (fasttemplate.mkTemplate "a{{ x }}b" "{{" "}}" ["a"; "b"] [" x "])
      (<["x" := "v"]> ∅) false = Returned (out, None)
    /\ replaceWithFastTemplate no_wide_print
         (fasttemplate.mkTemplate "a{{ x }}b" "{{" "}}" ["a"; "b"] [" x "])
         (<["x" := "v"]> ∅) true = Returned (out, None).
Proof.
  apply (all_resolved_modes_agree no_wide_print "a{{ x }}b"
           (fasttemplate.mkTemplate "a{{ x }}b" "{{" "}}" ["a"; "b"] [" x "])
           (<["x" := "v"]> ∅)).
  - reflexivity.
  - intros tag Hin. apply elem_of_cons in Hin as [->|Hin]; [|by apply elem_of_nil in Hin].
    split; [vm_compute; intros H; discriminate H|]. exists "v". reflexivity.
Defined.

(** ** Escaped values hold no control character *)

Lemma all_bytes_app (p : ascii -> bool) (a b : string) :
  all_bytes p (a ++ b) = all_bytes p a && all_bytes p b.
Proof. induction a as [|c a IH]; simpl; [done|]. by rewrite IH, andb_assoc. Qed.

Lemma byte_val_lor_high (hi y : Z) :
  Z.testbit hi 7 = true -> (0x80 <= byte_val (byte_of (Z.lor hi y)))%Z.
Proof.
  intros Hhi. destruct (Z.lt_ge_cases (byte_val (byte_of (Z.lor hi y))) 0x80) as [Hlt|]; [|done].
  by destruct (byte_of_lor_high hi y (byte_of (Z.lor hi y)) Hhi Hlt).
Qed.

Lemma not_control_high (hi y : Z) :
  Z.testbit hi 7 = true -> not_control (byte_of (Z.lor hi y)) = true.
Proof.
  intros Hhi. pose proof (byte_val_lor_high hi y Hhi). unfold not_control.
  apply andb_true_iff. split; [apply Z.leb_le; lia|].
  apply negb_true_iff, Z.eqb_neq. lia.
Qed.

Lemma lowerhex_not_control (x : Z) : not_control (strconv.lowerhex x) = true.
Proof.
  unfold strconv.lowerhex. generalize (Z.to_nat x) as n. intros n.
  do 17 (destruct n as [|n]; [reflexivity|]). reflexivity.
Qed.

Lemma hex_digits_not_control (r : Z) (shifts : list Z) :
  all_bytes not_control (strconv.hex_digits r shifts) = true.
Proof.
  unfold strconv.hex_digits. induction shifts as [|k shifts IH]; [done|].
  cbn [map string_of_list_ascii all_bytes]. by rewrite lowerhex_not_control, IH.
Qed.

Lemma IsPrint_ascii (tbl : Z -> bool) (r : Z) :
  strconv.IsPrint tbl r = true -> (r <= 0x7F)%Z -> (0x20 <= r <= 0x7E)%Z.
Proof.
  unfold strconv.IsPrint. intros Hp Hr.
  destruct (Z.leb_spec r 255); [|lia].
  destruct (Z.leb_spec 32 r), (Z.leb_spec r 126); cbn [andb] in Hp; try lia;
    destruct (Z.leb_spec 161 r); cbn [andb] in Hp; try lia; done.
Qed.

Lemma EncodeRune_printable (tbl : Z -> bool) (r : Z) :
  strconv.IsPrint tbl r = true -> all_bytes not_control (utf8.EncodeRune r) = true.
Proof.
  intros Hp. pose proof (IsPrint_ascii tbl r Hp) as Hascii. unfold utf8.EncodeRune.
  repeat (case_cmp; cbn [andb negb] in *; try done; try lia);
    cbn [all_bytes]; rewrite ?not_control_high by done; try done.
  all: unfold not_control; rewrite byte_val_byte_of, Z.mod_small by lia.
  all: rewrite andb_true_r; apply andb_true_iff; split;
       [apply Z.leb_le; lia|apply negb_true_iff, Z.eqb_neq; lia].
Qed.

Lemma appendEscapedRune_not_control (tbl : Z -> bool) (r : Z) :
  all_bytes not_control (strconv.appendEscapedRune tbl r strconv.dquote) = true.
Proof.
  unfold strconv.appendEscapedRune.
  destruct ((r =? byte_val strconv.dquote)%Z || (r =? 92)%Z) eqn:Hq.
  - apply orb_true_iff in Hq as [->%Z.eqb_eq| ->%Z.eqb_eq]; done.
  - destruct (strconv.IsPrint tbl r) eqn:Hp; [by apply (EncodeRune_printable tbl)|].
    repeat match goal with
           | |- context [if (r =? ?k)%Z then String _ _ else _] =>
               destruct (r =? k)%Z; [done|]
           end.
    destruct ((r <? 32)%Z || (r =? 127)%Z).
    + cbn [all_bytes]. by rewrite hex_digits_not_control.
    + destruct (_ <? _)%Z; cbn [all_bytes]; by rewrite hex_digits_not_control.
Qed.

(** X4: the escaped form of a value holds no control character: no byte
    below 0x20 and no DEL, whatever the value. *)
Theorem escaped_value_has_no_control_byte (tbl : Z -> bool) (v : string) :
  all_bytes not_control (escape tbl v) = true.
Proof.
  unfold escape. generalize 0 as skip.
  induction v as [|c v IH]; intros skip; [done|].
  cbn [strconv.appendQuotedWith_loop]. destruct skip as [|k]; [|apply IH].
  destruct (if (byte_val c <? utf8.RuneSelf)%Z then _ else _) as [r width].
  rewrite all_bytes_app, IH, andb_true_r.
  destruct (_ && _); [|apply appendEscapedRune_not_control].
  cbn [all_bytes]. by rewrite hex_digits_not_control.
Qed.

(** ** Tags of white space *)

Lemma TrimSpace_ascii_space (tag : string) :
  all_bytes ascii_space tag = true -> strings.TrimSpace tag = "".
Proof.
  induction tag as [|c tag IH]; [done|]. cbn [all_bytes]. intros [Hc Htag]%andb_true_iff.
  cbn [strings.TrimSpace]. unfold ascii_space in Hc.
  assert ((utf8.RuneSelf <=? byte_val c)%Z = false) as Hlow.
  { unfold strings.asciiSpace, utf8.RuneSelf in *. apply Z.leb_gt.
    destruct (Z.leb_spec 9 (byte_val c)), (Z.leb_spec (byte_val c) 13),
      (Z.eqb_spec (byte_val c) 32); cbn [andb orb] in Hc; try done; lia. }
  rewrite Hlow, Hc. by apply IH.
Qed.

(** X5: a tag that is empty or made of ASCII white space never resolves,
    even when the mapping binds the empty key: the tag function writes it
    back as it stood when unresolved tags are allowed, and otherwise writes
    nothing and records the error for that tag. *)
Theorem blank_tag_never_resolves (tbl : Z -> bool) (m : gmap string string)
    (w tag : string) (st : option error) :
  all_bytes ascii_space tag = true ->
  (exists n, replaceWithFastTemplate_func tbl m true w tag st
             = ((w ++ "{{" ++ tag ++ "}}", st), (n, None)))
  /\ replaceWithFastTemplate_func tbl m false w tag st
     = ((w, Some (fmt_Errorf ("failed to resolve {{" ++ tag ++ "}}"))), (0, None)).
Proof.
  intros Hblank. apply TrimSpace_ascii_space in Hblank.
  unfold replaceWithFastTemplate_func. rewrite Hblank.
  destruct (m !! "") as [v|]; cbn [String.length Nat.eqb orb]; split; eauto.
Qed.

Lemma blank_tag_never_resolves_witness :
  (exists n, replaceWithFastTemplate_func no_wide_print (<["" := "v"]> ∅) true "a" "  " None
             = (("a" ++ "{{" ++ "  " ++ "}}", None), (n, None)))
  /\ replaceWithFastTemplate_func no_wide_print (<["" := "v"]> ∅) false "a" "  " None
     = (("a", Some (fmt_Errorf ("failed to resolve {{" ++ "  " ++ "}}"))), (0, None)).
Proof.
  apply (blank_tag_never_resolves no_wide_print (<["" := "v"]> ∅) "a" "  " None).
  reflexivity.
Defined.

(** * Further properties of the renderer *)

Lemma Reset_loop_error (fuel : nat) (s : string) (atx atg : list string) (rest : string) :
  fasttemplate.Reset_loop fuel s "{{" "}}" atx atg = Returned (inr rest) ->
  Index rest "}}" = None /\ exists pre, s = pre ++ "{{" ++ rest.
Proof.
  revert s atx atg; induction fuel as [|fuel IH]; intros s atx atg; [done|].
  cbn [fasttemplate.Reset_loop].
  destruct (Index s "{{") as [n|] eqn:Hn; [|done].
  destruct (Index (slice_from (n + String.length "{{") s) "}}") as [n'|] eqn:Hn'.
  - intros H. apply IH in H as (Hrest & pre & Hpre). split; [done|].
    exists (slice_to n s ++ "{{"
            ++ slice_to n' (slice_from (n + String.length "{{") s) ++ "}}" ++ pre).
    rewrite !append_assoc. rewrite <- Hpre.
    rewrite <- (Index_split _ _ _ Hn'). by apply Index_split.
  - intros [= <-]. split; [done|]. exists (slice_to n s). by apply Index_split.
Qed.

Lemma Reset_loop_wf_no_panic (fuel : nat) (s : string) (atx atg : list string) (p : panic) :
  fasttemplate.Reset_loop fuel s "{{" "}}" atx atg = Panicked p -> False.
Proof.
  revert s atx atg; induction fuel as [|fuel IH]; intros s atx atg; [done|].
  cbn [fasttemplate.Reset_loop].
  destruct (Index s "{{") as [n|]; [|done].
  destruct (Index (slice_from (n + String.length "{{") s) "}}") as [n'|]; [|done].
  apply IH.
Qed.

Lemma New_panic (s : string) (p : panic) :
  fasttemplate.New s "{{" "}}" = Panicked p ->
  exists pre rest, p = panic_end_tag "}}" s rest
    /\ s = pre ++ "{{" ++ rest /\ Index rest "}}" = None.
Proof.
  unfold fasttemplate.New, fasttemplate.Reset.
  destruct (decide (String.length "{{" = 0)) as [|_]; [done|].
  destruct (decide (String.length "}}" = 0)) as [|_]; [done|].
  destruct (decide (Count s "{{" = 0)) as [Hc|Hc]; [done|].
  destruct (fasttemplate.Reset_loop _ _ _ _ _ _) as [[[tx tg]|rest]|p'|] eqn:Hl; simpl.
  - done.
  - intros [= <-]. apply Reset_loop_error in Hl as (Hrest & pre & Hpre). eauto.
  - by apply Reset_loop_wf_no_panic in Hl.
  - done.
Qed.

Lemma Index_app_le (pre q sep : string) :
  exists n, Index (pre ++ sep ++ q) sep = Some n /\ n <= String.length pre.
Proof.
  induction pre as [|c pre (n & Hn & Hle)].
  - exists 0. split; [|done]. cbn [append]. apply Index_here, HasPrefix_app.
  - cbn [append]. destruct (HasPrefix (String c (pre ++ sep ++ q)) sep) eqn:Hp.
    + exists 0. split; [by apply Index_here|simpl; lia].
    + exists (S n). rewrite Index_next, Hn by done. split; [done|simpl; lia].
Qed.

Lemma slice_from_app_le (k : nat) (a b : string) :
  k <= String.length a -> slice_from k (a ++ b) = slice_from k a ++ b.
Proof.
  revert a; induction k as [|k IH]; intros a Hk; [done|].
  destruct a as [|c a]; simpl in *; [lia|]. apply IH. lia.
Qed.

(** An end tag found before an unterminated start tag lies wholly before it. *)
Lemma Index_close_before_open (pre rest : string) (n : nat) :
  Index rest "}}" = None ->
  Index (pre ++ "{{" ++ rest) "}}" = Some n -> n + 2 <= String.length pre.
Proof.
  intros Hrest. revert n.
  assert (Index ("{{" ++ rest) "}}" = None) as Hopen.
  { cbn [append]. rewrite Index_next by done.
    rewrite Index_next by done. by rewrite Hrest. }
  induction pre as [|c pre IH]; intros n.
  { change ("" ++ "{{" ++ rest) with ("{{" ++ rest). by rewrite Hopen. }
  change (String c pre ++ "{{" ++ rest) with (String c (pre ++ "{{" ++ rest)).
  destruct (HasPrefix (String c (pre ++ "{{" ++ rest)) "}}") eqn:Hp.
  - rewrite (Index_here _ _ Hp). intros [= <-].
    destruct pre as [|d pre]; [|simpl; lia].
    cbn [HasPrefix append] in Hp.
    destruct (ascii_dec "}" c); [|done]. by destruct (ascii_dec "}" "{").
  - rewrite Index_next by done.
    destruct (Index (pre ++ "{{" ++ rest) "}}") as [m|] eqn:Hm; [|done].
    intros [= <-]. specialize (IH m eq_refl). simpl. lia.
Qed.

Lemma Reset_loop_unterminated (fuel : nat) (pre rest : string) (atx atg : list string) :
  Index rest "}}" = None ->
  String.length (pre ++ "{{" ++ rest) < fuel ->
  exists r, fasttemplate.Reset_loop fuel (pre ++ "{{" ++ rest) "{{" "}}" atx atg
            = Returned (inr r).
Proof.
  intros Hrest. revert pre atx atg; induction fuel as [|fuel IH]; intros pre atx atg Hlen; [lia|].
  cbn [fasttemplate.Reset_loop].
  destruct (Index_app_le pre rest "{{") as (n & Hn & Hle). rewrite Hn.
  change (String.length "{{") with 2.
  assert (slice_from (n + 2) (pre ++ "{{" ++ rest)
          = if decide (n + 2 <= String.length pre) then slice_from (n + 2) pre ++ "{{" ++ rest
            else if decide (n = String.length pre) then rest else "{" ++ rest) as Hs1.
  { destruct (decide (n + 2 <= String.length pre)); [by apply slice_from_app_le|].
    destruct (decide (n = String.length pre)) as [->|].
    - replace (String.length pre + 2) with (String.length (pre ++ "{{"))
        by (rewrite length_append; simpl; lia).
      by rewrite <- (append_assoc pre "{{" rest), slice_from_app.
    - replace (n + 2) with (String.length pre + 1) by lia.
      by rewrite slice_from_add, slice_from_app. }
  rewrite Hs1. clear Hs1.
  destruct (decide (n + 2 <= String.length pre)) as [Hin|Hout].
  - destruct (Index (slice_from (n + 2) pre ++ "{{" ++ rest) "}}") as [n'|] eqn:Hn'; [|eauto].
    pose proof (Index_close_before_open _ _ _ Hrest Hn') as Hbefore.
    change (String.length "}}") with 2.
    rewrite slice_from_app_le by done. apply IH.
    rewrite !length_append, !slice_from_length in *. simpl in *. lia.
  - destruct (decide (n = String.length pre)); [rewrite Hrest; eauto|].
    cbn [append]. rewrite Index_next by done. rewrite Hrest. simpl. eauto.
Qed.

Lemma New_panic_iff (s : string) :
  (exists p, fasttemplate.New s "{{" "}}" = Panicked p)
  <-> exists pre rest, s = pre ++ "{{" ++ rest /\ Index rest "}}" = None.
Proof.
  split.
  - intros (p & Hp). apply New_panic in Hp as (pre & rest & _ & Hs & Hrest). eauto.
  - intros (pre & rest & -> & Hrest).
    unfold fasttemplate.New, fasttemplate.Reset.
    destruct (decide (String.length "{{" = 0)) as [|_]; [done|].
    destruct (decide (String.length "}}" = 0)) as [|_]; [done|].
    destruct (decide (Count (pre ++ "{{" ++ rest) "{{" = 0)) as [Hc|Hc].
    { apply Count_zero in Hc. destruct (Index_app_le pre rest "{{") as (n & Hn & _).
      congruence. }
    destruct (Reset_loop_unterminated (S (String.length (pre ++ "{{" ++ rest)))
                pre rest [] [] Hrest ltac:(lia)) as [r ->].
    simpl. eauto.
Qed.

(** X6: parsing a template panics exactly when the text holds a start tag
    after which no end tag follows. *)
Theorem New_panics_iff_unterminated (s : string) :
  (exists p, fasttemplate.New s "{{" "}}" = Panicked p)
  <-> exists pre rest, s = pre ++ "{{" ++ rest /\ Index rest "}}" = None.
Proof. apply New_panic_iff. Qed.

Section RenderMoreFacts.
Variable ApplicationSpec : Type.
Variable isPrintTables : Z -> bool.
Variable json_Marshal : Application ApplicationSpec -> string + string.
Variable json_Unmarshal : string -> Application ApplicationSpec + string.
Variable yaml_Marshal : Application ApplicationSpec -> string + string.
Variable yaml_Unmarshal : string -> Application ApplicationSpec + string.
Variable template_Parse : string -> list template.Node + string.

Local Abbreviation Render :=
  (RenderTemplateParams ApplicationSpec isPrintTables json_Marshal json_Unmarshal
     yaml_Marshal yaml_Unmarshal template_Parse).
Local Abbreviation deserialize :=
  (deserialize_rendered ApplicationSpec isPrintTables json_Marshal json_Unmarshal
     yaml_Marshal yaml_Unmarshal template_Parse).

Lemma deserialize_rendered_panic (templateOptions : option ApplicationSetTemplateOptions)
    (app : Application ApplicationSpec) (params : gmap string string) :
  (exists p, deserialize templateOptions app params = Panicked p)
  <-> fasttemplate_selected templateOptions = true
      /\ exists text pre rest,
           json_Marshal app = inl text /\ text = pre ++ "{{" ++ rest
           /\ Index rest "}}" = None.
Proof.
  unfold deserialize_rendered. fold (fasttemplate_selected templateOptions).
  destruct (fasttemplate_selected templateOptions).
  - rewrite render_fasttemplate_spec. destruct (json_Marshal app) as [text|msg].
    + pose proof (New_panic_iff text) as Hiff.
      destruct (fasttemplate.New text "{{" "}}") as [t|p|] eqn:Hnew; simpl.
      * split.
        -- intros [p Hp]. by destruct (json_Unmarshal _).
        -- intros (_ & text' & pre & rest & [= <-] & Hs & Hrest).
           destruct (proj2 Hiff) as [p Hp]; [by exists pre, rest|done].
      * split; [|eauto]. intros _. split; [done|].
        destruct (proj1 Hiff) as (pre & rest & Hs & Hrest); [eauto|].
        by exists text, pre, rest.
      * by destruct (New_terminates text).
    + split; [by intros [p Hp]|]. by intros (_ & text & pre & rest & ? & _).
  - rewrite render_gotemplate_spec. split; [|by intros [? _]].
    intros [p Hp]. repeat case_match; done.
Qed.

(** X7: with a valid template pointer, RenderTemplateParams panics exactly
    when the parameters are not empty, the JSON branch is selected, and the
    marshalled template holds a start tag after which no end tag follows;
    the YAML branch never panics. *)
Theorem render_panics_iff_unterminated_tag (l : loc)
    (syncPolicy : option ApplicationSetSyncPolicy)
    (templateOptions : option ApplicationSetTemplateOptions)
    (params : gmap string string) (h : gmap loc (Application ApplicationSpec))
    (app : Application ApplicationSpec) :
  h !! l = Some app ->
  (exists p, Render (Some l) syncPolicy templateOptions params h = Panicked p)
  <-> size params <> 0
      /\ fasttemplate_selected templateOptions = true
      /\ exists text pre rest,
           json_Marshal app = inl text /\ text = pre ++ "{{" ++ rest
           /\ Index rest "}}" = None.
Proof.
  intros Hl. unfold RenderTemplateParams. rewrite Hl.
  rewrite <- (deserialize_rendered_panic templateOptions app params).
  destruct (size params =? 0)%nat eqn:Hs.
  - apply Nat.eqb_eq in Hs. split; [by intros [p Hp]|]. by intros [? _].
  - apply Nat.eqb_neq in Hs.
    destruct (deserialize templateOptions app params) as [[d|e]|p|]; simpl.
    + split; [by intros [p Hp]|]. by intros (_ & p & Hp).
    + split; [by intros [p Hp]|]. by intros (_ & p & Hp).
    + split; eauto.
    + split; [by intros [p Hp]|]. by intros (_ & p & Hp).
Qed.

(** The fuel of the model suffices: RenderTemplateParams returns or panics. *)
Lemma render_terminates (tmpl : option loc)
    (syncPolicy : option ApplicationSetSyncPolicy)
    (templateOptions : option ApplicationSetTemplateOptions)
    (params : gmap string string) (h : gmap loc (Application ApplicationSpec)) :
  Render tmpl syncPolicy templateOptions params h <> OutOfFuel.
Proof.
  unfold RenderTemplateParams. destruct tmpl as [l|]; [|done].
  destruct (size params =? 0)%nat; [done|]. destruct (h !! l) as [app|]; [|done].
  assert (deserialize templateOptions app params <> OutOfFuel) as Hd.
  { unfold deserialize_rendered. destruct (match templateOptions with None => _ | _ => _ end).
    - rewrite render_fasttemplate_spec. destruct (json_Marshal app) as [text|msg]; [|done].
      pose proof (New_terminates text).
      destruct (fasttemplate.New text "{{" "}}"); simpl; try done.
      by destruct (json_Unmarshal _).
    - rewrite render_gotemplate_spec. repeat case_match; done. }
  by destruct (deserialize templateOptions app params) as [[d|e]|p|].
Qed.

(** X8: a call that returns leaves every object of the heap as it was; the
    heap is the same after a call that returns an error or was given no
    parameters. *)
Theorem render_keeps_heap (tmpl res : option loc)
    (syncPolicy : option ApplicationSetSyncPolicy)
    (templateOptions : option ApplicationSetTemplateOptions)
    (params : gmap string string) (h h' : gmap loc (Application ApplicationSpec))
    (err : option error) :
  Render tmpl syncPolicy templateOptions params h = Returned ((res, err), h') ->
  h ⊆ h' /\ (err <> None \/ size params = 0 -> h' = h).
Proof.
  unfold RenderTemplateParams. destruct tmpl as [l|]; [|by intros [= <- <- <-]].
  destruct (size params =? 0)%nat eqn:Hs; [by intros [= <- <- <-]|].
  apply Nat.eqb_neq in Hs.
  destruct (h !! l) as [app|]; [|done].
  destruct (deserialize templateOptions app params) as [[d|e]|p|]; simpl; [| |done..].
  - intros [= <- <- <-]. split; [|by intros [?|?]].
    apply insert_subseteq, not_elem_of_dom, is_fresh.
  - by intros [= <- <- <-].
Qed.

(** X9: when the marshalled template holds no start tag, the JSON branch
    deserializes that very text, whatever the parameters: the result is a
    new object, the deserialized template with the finalizer rule applied. *)
Theorem render_text_without_tags (l : loc)
    (syncPolicy : option ApplicationSetSyncPolicy)
    (templateOptions : option ApplicationSetTemplateOptions)
    (params : gmap string string) (h : gmap loc (Application ApplicationSpec))
    (app d : Application ApplicationSpec) (text : string) :
  h !! l = Some app ->
  size params <> 0 ->
  fasttemplate_selected templateOptions = true ->
  json_Marshal app = inl text ->
  Index text "{{" = None ->
  json_Unmarshal text = inl d ->
  Render (Some l) syncPolicy templateOptions params h
  = Returned ((Some (fresh (dom h)), None),
              <[fresh (dom h) := add_finalizer syncPolicy d]> h).
Proof.
  intros Hl Hs Hsel Hm Htext Hd. unfold RenderTemplateParams. rewrite Hl.
  apply Nat.eqb_neq in Hs. rewrite Hs.
  unfold deserialize_rendered. fold (fasttemplate_selected templateOptions). rewrite Hsel.
  unfold render_fasttemplate. rewrite Hm.
  destruct (replaceWithFastTemplate_no_start_tag isPrintTables text params true Htext)
    as (t & -> & Ht).
  simpl. rewrite Ht. simpl. by rewrite Hd.
Qed.

End RenderMoreFacts.

Lemma render_panics_iff_unterminated_tag_witness :
  exists p,
    RenderTemplateParams unit no_wide_print
      (fun app => inl (Name (App_ObjectMeta app))) Mini.Unmarshal
      Mini.Marshal Mini.Unmarshal Mini.Parse
      (Some 1%positive) None None (<["x" := "v"]> ∅)
      (<[1%positive := Mini.mkApp "a{{x" None]> ∅)
    = Panicked p.
Proof.
  assert ((<[1%positive := Mini.mkApp "a{{x" None]> ∅ : gmap loc Mini.App) !! 1%positive
          = Some (Mini.mkApp "a{{x" None)) as Hl by (vm_compute; reflexivity).
  apply (proj2 (render_panics_iff_unterminated_tag unit no_wide_print
    (fun app => inl (Name (App_ObjectMeta app))) Mini.Unmarshal
    Mini.Marshal Mini.Unmarshal Mini.Parse 1%positive None None (<["x" := "v"]> ∅)
    _ _ Hl)).
  split; [vm_compute; intros H; discriminate H|]. split; [reflexivity|].
  exists "a{{x", "a", "x". split; [reflexivity|]. split; reflexivity.
Defined.

Lemma render_keeps_heap_witness :
  (<[1%positive := Mini.mkApp "{{x}}" None]> ∅ : gmap loc Mini.App)
  ⊆ <[2%positive := Mini.mkApp "v" (Some ["resources-finalizer.argocd.argoproj.io"])]>
      (<[1%positive := Mini.mkApp "{{x}}" None]> ∅)
  /\ ((None : option error) <> None \/ size (<["x" := "v"]> (∅ : gmap string string)) = 0 ->
      (<[2%positive := Mini.mkApp "v" (Some ["resources-finalizer.argocd.argoproj.io"])]>
         (<[1%positive := Mini.mkApp "{{x}}" None]> ∅) : gmap loc Mini.App)
      = <[1%positive := Mini.mkApp "{{x}}" None]> ∅).
Proof.
  apply (render_keeps_heap unit no_wide_print Mini.Marshal Mini.Unmarshal Mini.Marshal
           Mini.Unmarshal Mini.Parse (Some 1%positive) (Some 2%positive) None None
           (<["x" := "v"]> ∅) (<[1%positive := Mini.mkApp "{{x}}" None]> ∅)
           (<[2%positive := Mini.mkApp "v" (Some ["resources-finalizer.argocd.argoproj.io"])]>
              (<[1%positive := Mini.mkApp "{{x}}" None]> ∅))
           None).
  vm_compute. reflexivity.
Defined.

Lemma render_text_without_tags_witness :
  RenderTemplateParams unit no_wide_print Mini.Marshal Mini.Unmarshal Mini.Marshal
    Mini.Unmarshal Mini.Parse (Some 1%positive) None None (<["x" := "v"]> ∅)
    (<[1%positive := Mini.mkApp "plain" None]> ∅)
  = Returned ((Some (fresh (dom (<[1%positive := Mini.mkApp "plain" None]> ∅
                                   : gmap loc Mini.App))), None),
              <[fresh (dom (<[1%positive := Mini.mkApp "plain" None]> ∅
                              : gmap loc Mini.App))
                := add_finalizer None (Mini.mkApp "plain" None)]>
                (<[1%positive := Mini.mkApp "plain" None]> ∅)).
Proof.
  apply (render_text_without_tags unit no_wide_print Mini.Marshal Mini.Unmarshal Mini.Marshal
           Mini.Unmarshal Mini.Parse 1%positive None None (<["x" := "v"]> ∅)
           (<[1%positive := Mini.mkApp "plain" None]> ∅)
           (Mini.mkApp "plain" None) (Mini.mkApp "plain" None)
           (Mini.doc_open ++ json.quote "plain" ++ "" ++ Mini.doc_close)).
  - vm_compute. reflexivity.
  - vm_compute. intros H. discriminate H.
  - reflexivity.
  - reflexivity.
  - vm_compute. reflexivity.
  - vm_compute. reflexivity.
Defined.

(** * Further properties of the generator inspector *)

Section InspectorMoreFacts.
Variable Variant : Type.
Variable float64 : Type.
Variable json_Unmarshal_map : string -> gmap string (jvalue float64) + string.
Variable range_first : gmap string (jvalue float64) -> option string.

Local Abbreviation addNames :=
  (addInvalidGeneratorNames Variant float64 json_Unmarshal_map range_first).
Local Abbreviation inspect :=
  (invalidGenerators Variant float64 json_Unmarshal_map range_first).
Local Abbreviation inspect_loop :=
  (invalidGenerators_loop Variant float64 json_Unmarshal_map range_first).
Local Abbreviation recovers_at :=
  (recovers Variant float64 json_Unmarshal_map range_first).
Local Abbreviation named_in :=
  (named Variant float64 json_Unmarshal_map range_first).

Lemma addInvalidGeneratorNames_cases (names : gmap string bool)
    (info : ApplicationSet Variant) (index : nat) :
  (addNames names info index = names /\ forall k, ~ recovers_at info index k)
  \/ (exists key, addNames names info index = <[key := true]> names
                  /\ forall k, recovers_at info index k <-> k = key).
Proof.
  unfold addInvalidGeneratorNames, recovers. fold (config_of info).
  destruct (json_Unmarshal_map (config_of info)) as [values|e];
    [|left; split; [done|by intros k (?&?&?&?&?&_)]].
  destruct (values !! "spec") as [[| | | | |spec]|] eqn:Hspec;
    try (left; split; [done|intros k (?&?&?&?&?&?&_); simplify_eq]).
  destruct (spec !! "generators") as [[| | | |gens|]|] eqn:Hgens;
    try (left; split; [done|intros k (?&?&?&?&?&?&?&_); simplify_eq]).
  destruct (length gens <=? index)%nat eqn:Hlen.
  { apply Nat.leb_le in Hlen. apply lookup_ge_None_2 in Hlen.
    left; split; [done|intros k (?&?&?&?&?&?&?&?&_); simplify_eq]. }
  destruct (gens !! index) as [[| | | | |generator]|] eqn:Hgen;
    try (left; split; [done|intros k (?&?&?&?&?&?&?&?&_); simplify_eq]).
  destruct (range_first generator) as [key|] eqn:Hkey.
  - right. exists key. split; [done|]. intros k. split.
    + intros (?&?&?&?&?&?&?&?&?); simplify_eq. done.
    + intros ->. by exists values, spec, gens, generator.
  - left; split; [done|intros k (?&?&?&?&?&?&?&?&?); simplify_eq].
Qed.

Lemma invalidGenerators_loop_dom (info : ApplicationSet Variant) (index : nat)
    (gens : list (ApplicationSetGenerator Variant)) (flag : bool)
    (names : gmap string bool) (k : string) :
  k ∈ dom (inspect_loop info index gens flag names).2
  <-> k ∈ dom names
      \/ exists j g, gens !! j = Some g /\ Forall (fun slot => slot = None) g
                     /\ recovers_at info (index + j) k.
Proof.
  revert index flag names; induction gens as [|g gens IH]; intros index flag names; simpl.
  - split; [auto|]. intros [?|(j & g & Hj & _)]; [done|]. by rewrite lookup_nil in Hj.
  - destruct (found_loop g) eqn:Hg; simpl; rewrite IH.
    + assert (~ Forall (fun slot => slot = None) g) as Hn
        by (rewrite <- found_loop_false; congruence).
      split.
      * intros [?|(j & g' & Hj & Hnil & Hrec)]; [by left|right].
        exists (S j), g'. by rewrite Nat.add_succ_r.
      * intros [?|(j & g' & Hj & Hnil & Hrec)]; [by left|right].
        destruct j as [|j]; simpl in Hj; [by simplify_eq|].
        exists j, g'. by rewrite Nat.add_succ_r in Hrec.
    + apply found_loop_false in Hg.
      destruct (addInvalidGeneratorNames_cases names info index)
        as [[-> Hno]|(key & -> & Hkey)].
      * split.
        -- intros [?|(j & g' & Hj & Hnil & Hrec)]; [by left|right].
           exists (S j), g'. by rewrite Nat.add_succ_r.
        -- intros [?|(j & g' & Hj & Hnil & Hrec)]; [by left|].
           destruct j as [|j]; simpl in Hj.
           ++ rewrite Nat.add_0_r in Hrec. by destruct (Hno k).
           ++ right. exists j, g'. by rewrite Nat.add_succ_r in Hrec.
      * rewrite dom_insert, elem_of_union, elem_of_singleton. split.
        -- intros [[->|?]|(j & g' & Hj & Hnil & Hrec)].
           ++ right. exists 0, g. rewrite Nat.add_0_r. split_and!; [done..|]. by apply Hkey.
           ++ by left.
           ++ right. exists (S j), g'. by rewrite Nat.add_succ_r.
        -- intros [?|(j & g' & Hj & Hnil & Hrec)]; [by left; right|].
           destruct j as [|j]; simpl in Hj.
           ++ rewrite Nat.add_0_r in Hrec. left; left. by apply Hkey.
           ++ right. exists j, g'. by rewrite Nat.add_succ_r in Hrec.
Qed.

Lemma invalidGenerators_loop_values (info : ApplicationSet Variant) (index : nat)
    (gens : list (ApplicationSetGenerator Variant)) (flag : bool)
    (names : gmap string bool) :
  (forall k b, names !! k = Some b -> b = true) ->
  forall k b, (inspect_loop info index gens flag names).2 !! k = Some b -> b = true.
Proof.
  revert index flag names; induction gens as [|g gens IH]; intros index flag names Hn; simpl.
  - done.
  - destruct (found_loop g); simpl; apply IH; [done|].
    destruct (addInvalidGeneratorNames_cases names info index)
      as [[-> _]|(key & -> & _)]; [done|].
    intros k b. destruct (decide (key = k)) as [->|Hne].
    + rewrite lookup_insert_eq. congruence.
    + rewrite lookup_insert_ne by done. apply Hn.
Qed.

(** X10 (invalidGenerators, addInvalidGeneratorNames): the names returned
    are exactly the keys the annotation yields at the index of a generator
    with no slot populated, and every one of them is mapped to true. *)
Theorem names_are_the_recovered_ones (info : ApplicationSet Variant) (k : string) :
  (k ∈ dom (inspect info).2 <-> named_in info k)
  /\ (forall b, (inspect info).2 !! k = Some b -> b = true).
Proof.
  split.
  - unfold invalidGenerators. rewrite invalidGenerators_loop_dom, dom_empty.
    unfold named, unrecognized. split.
    + intros [?|(j & g & Hj & Hnil & Hrec)]; [set_solver|]. exists j. eauto.
    + intros (j & (g & Hj & Hnil) & Hrec). right. by exists j, g.
  - apply invalidGenerators_loop_values. intros k' b. by rewrite lookup_empty.
Qed.

End InspectorMoreFacts.

(** * The warning of [CheckInvalidGenerators] *)

Section CheckInvalidGeneratorsFacts.
Variable Variant : Type.
Variable float64 : Type.
Variable json_Unmarshal_map : string -> gmap string (jvalue float64) + string.
Variable range_first : gmap string (jvalue float64) -> option string.

Local Abbreviation inspect :=
  (invalidGenerators Variant float64 json_Unmarshal_map range_first).
Local Abbreviation named_in :=
  (named Variant float64 json_Unmarshal_map range_first).
Local Abbreviation check :=
  (CheckInvalidGenerators Variant float64 json_Unmarshal_map range_first).





(** X12 (CheckInvalidGenerators): the warning does not depend on the order
    in which the names are visited, whatever order the map iteration
    takes. *)
Theorem warning_independent_of_map_order
    (range_keys range_keys' : gmap string bool -> list string)
    (info : ApplicationSet Variant) :
  (forall names, range_keys names ≡ₚ (map_to_list names).*1) ->
  (forall names, range_keys' names ≡ₚ (map_to_list names).*1) ->
  check range_keys info = check range_keys' info.
Proof.
  intros Hrange Hrange'. unfold CheckInvalidGenerators.
  destruct (inspect info) as [flag names].
  destruct (0 <? size names)%nat; [|done].
  assert (sort_Strings (range_keys names) = sort_Strings (range_keys' names)) as ->; [|done].
  unfold sort_Strings.
  apply (Sorted_unique String.le); try apply (Sorted_merge_sort _).
  by rewrite !merge_sort_Permutation, Hrange, Hrange'.
Qed.

End CheckInvalidGeneratorsFacts.


Lemma warning_independent_of_map_order_witness :
  CheckInvalidGenerators unit Z MiniJSON.Unmarshal_map MiniJSON.range_first
    keys_in_order sample_owner
  = CheckInvalidGenerators unit Z MiniJSON.Unmarshal_map MiniJSON.range_first
      (fun names => reverse (keys_in_order names)) sample_owner.
Proof.
  apply (warning_independent_of_map_order unit Z MiniJSON.Unmarshal_map MiniJSON.range_first
    keys_in_order (fun names => reverse (keys_in_order names)) sample_owner).
  - intros names. reflexivity.
  - intros names. apply reverse_Permutation.
Defined.
